(** * Talking clock sketch (TalkingClock.ino): model and verified properties

    The sketch runs on an ATmega328P: [int] is 16 bits wide, [long] 32 bits,
    [uint8_t]/[int8_t] 8 bits.  Integers are modelled as [Z] with the
    wrap-around of each C type written out.  Undefined behaviour of the C
    program (an out-of-bounds table read, a NULL clip name, a write before
    the filename buffer) is the [None] of the sketch monad. *)

From Stdlib Require Import ZArith List String Ascii Bool Lia.
Import ListNotations.
Local Open Scope string_scope.
Local Open Scope list_scope.
Local Open Scope Z_scope.

(** ** Fixed-width C integers *)

Definition uint8 (x : Z) : Z := x mod 256.
Definition int8 (x : Z) : Z := (x + 128) mod 256 - 128.
Definition int16 (x : Z) : Z := (x + 32768) mod 65536 - 32768.
Definition uint32 (x : Z) : Z := x mod 4294967296.
Definition int32 (x : Z) : Z := (x + 2147483648) mod 4294967296 - 2147483648.

Definition is_int8 (x : Z) : Prop := -128 <= x <= 127.

(** ** Clip name tables (PROGMEM) *)

(** A [const char *] stored in a table: a string in flash, or NULL. *)
Inductive cptr : Type :=
| Str (s : string)
| NULL.

Definition boot := "boot".
Definition annc := "annc".
Definition am := "am".
Definition pm := "pm".
Definition h01 := "h01".
Definition h02 := "h02".
Definition h03 := "h03".
Definition h04 := "h04".
Definition h05 := "h05".
Definition h06 := "h06".
Definition h07 := "h07".
Definition h08 := "h08".
Definition h09 := "h09".
Definition h10 := "h10".
Definition h11 := "h11".
Definition h12 := "h12".
Definition m00 := "m00".
Definition m10 := "m10".
Definition m20 := "m20".
Definition m30 := "m30".
Definition m40 := "m40".
Definition m50 := "m50".
Definition m11 := "m11".
Definition m12 := "m12".
Definition m13 := "m13".
Definition m14 := "m14".
Definition m15 := "m15".
Definition m16 := "m16".
Definition m17 := "m17".
Definition m18 := "m18".
Definition m19 := "m19".
Definition m0x := "m0x".
Definition m2x := "m2x".
Definition m3x := "m3x".
Definition m4x := "m4x".
Definition m5x := "m5x".
Definition m1 := "m1".
Definition m2 := "m2".
Definition m3 := "m3".
Definition m4 := "m4".
Definition m5 := "m5".
Definition m6 := "m6".
Definition m7 := "m7".
Definition m8 := "m8".
Definition m9 := "m9".

Definition hours : list cptr :=
  map Str [h12; h01; h02; h03; h04; h05; h06; h07; h08; h09; h10; h11].
Definition mTens : list cptr := map Str [m00; m10; m20; m30; m40; m50].
Definition mTeens : list cptr :=
  map Str [m11; m12; m13; m14; m15; m16; m17; m18; m19].
Definition mTenX : list cptr := [Str m0x; NULL; Str m2x; Str m3x; Str m4x; Str m5x].
Definition mins : list cptr := map Str [m1; m2; m3; m4; m5; m6; m7; m8; m9].
Definition ampm : list cptr := map Str [am; pm].

(** The six tables, so that a lookup can be named by table and index. *)
Inductive table : Type := Hours | MTens | MTeens | MTenX | Mins | Ampm.

Definition table_data (t : table) : list cptr :=
  match t with
  | Hours => hours
  | MTens => mTens
  | MTeens => mTeens
  | MTenX => mTenX
  | Mins => mins
  | Ampm => ampm
  end.

(** Every string literal of the sketch that names a clip. *)
Definition clip_names : list string :=
  [boot; annc; am; pm;
   h01; h02; h03; h04; h05; h06; h07; h08; h09; h10; h11; h12;
   m00; m10; m20; m30; m40; m50;
   m11; m12; m13; m14; m15; m16; m17; m18; m19;
   m0x; m2x; m3x; m4x; m5x;
   m1; m2; m3; m4; m5; m6; m7; m8; m9].

(** [pgm_read_word(&tbl[i])]: [None] when [i] is outside the array. *)
Definition pgm_read_word (tbl : list cptr) (i : Z) : option cptr :=
  if i <? 0 then None else nth_error tbl (Z.to_nat i).

(** ** The time-to-phrase rules of [loop]

    [lookups h m] lists, in program order, the table reads that one
    activation performs for the clock reading [h]:[m]; [phrase h m] is the
    list of arguments of the successive [playfile] calls. *)

Definition minute_lookups (hi lo : Z) : list (table * Z) :=
  if lo =? 0 then [(MTens, hi)]
  else if hi =? 1 then [(MTeens, lo - 1)]
  else [(MTenX, hi); (Mins, lo - 1)].

Definition lookups (h m : Z) : list (table * Z) :=
  let hi := uint8 (m / 10) in
  let lo := uint8 (m mod 10) in
  let pm := 0 in
  let '(pm, h) := if 12 <=? h then (1, uint8 (h - 12)) else (pm, h) in
  [(Hours, h)] ++ minute_lookups hi lo ++ [(Ampm, pm)].

Definition read (l : table * Z) : option cptr :=
  pgm_read_word (table_data (fst l)) (snd l).

Definition minute_phrase (m : Z) : list (option cptr) :=
  map read (minute_lookups (uint8 (m / 10)) (uint8 (m mod 10))).

Definition phrase (h m : Z) : list (option cptr) :=
  Some (Str annc) :: map read (lookups h m).

(** A table read is fine when its index is inside the table and the entry
    read is a name, not the NULL of [mTenX]. *)
Definition lookup_ok (l : table * Z) : Prop :=
  0 <= snd l < Z.of_nat (List.length (table_data (fst l))) /\
  l <> (MTenX, 1) /\
  exists name, read l = Some (Str name) /\ In name clip_names.

(** An argument of [playfile] that is one of the sketch's clip names. *)
Definition is_clip (a : option cptr) : Prop :=
  exists name, a = Some (Str name) /\ In name clip_names.

(** ** Mouth envelope: the sample loop of [playfile] *)

Module Mouth.

(** The locals [lo], [hi] and [counter] of [playfile], all [int8_t]. *)
Record window : Type := { lo : Z; hi : Z; counter : Z }.

(** [lo=0, hi=0, counter=-1] *)
Definition init : window := {| lo := 0; hi := 0; counter := -1 |}.

(** One iteration of the [for] loop body on the sample [s] just read from
    [playpos[1]]: the new locals, and the value handed to
    [analogWrite(LEDMOUTH, _)] if this iteration writes the LED.
    [(hi - lo) * 4] is evaluated in (16-bit) [int]. *)
Definition step (w : window) (s : Z) : window * option Z :=
  let counter := int8 (counter w + 1) in
  if counter =? 0 then
    let b := int16 ((hi w - lo w) * 4) in
    let b := if 255 <? b then 255 else b in
    ({| lo := s; hi := s; counter := counter |}, Some b)
  else if s <? lo w then
    ({| lo := s; hi := hi w; counter := counter |}, None)
  else if hi w <? s then
    ({| lo := lo w; hi := s; counter := counter |}, None)
  else
    ({| lo := lo w; hi := hi w; counter := counter |}, None).

(** The loop over the samples seen while [wave.isplaying]: final locals
    and the brightness values written, in order. *)
Fixpoint run (samples : list Z) (w : window) : window * list Z :=
  match samples with
  | [] => (w, [])
  | s :: rest =>
      let (w1, b) := step w s in
      let (w2, bs) := run rest w1 in
      (w2, match b with Some b => b :: bs | None => bs end)
  end.

(** The brightness formula of the design: [clamp(x, a, b)]. *)
Definition clamp (x a b : Z) : Z := Z.max a (Z.min x b).

(** Smallest and largest sample of a non-empty window [s0 :: rest]. *)
Definition minimum (s0 : Z) (rest : list Z) : Z := fold_left Z.min rest s0.
Definition maximum (s0 : Z) (rest : list Z) : Z := fold_left Z.max rest s0.

(** What holds of the locals at every iteration: all three are [int8_t]
    values and the range is not empty. *)
Definition inv (w : window) : Prop :=
  is_int8 (lo w) /\ is_int8 (hi w) /\ is_int8 (counter w) /\ lo w <= hi w.

(** A value that [analogWrite] accepts. *)
Definition brightness (b : Z) : Prop := 0 <= b <= 255.

End Mouth.

(** ** Eye blink: the Timer/Counter 2 overflow interrupt *)

Module Eyes.

Inductive level : Type := LOW | HIGH.

(** The statics [counter] and [blinking] of the interrupt routine (both
    [uint8_t]) and the level of the eye LED pin 9. *)
Record blink : Type := { counter : Z; blinking : Z; pin9 : level }.

(** [counter = 1, blinking = 1]; [setup] has switched the eye LED on. *)
Definition init : blink := {| counter := 1; blinking := 1; pin9 := HIGH |}.

(** Largest value of avr-libc's [random()]. *)
Definition RANDOM_MAX : Z := 2147483647.

(** Arduino's [random(howbig)], where [r] is the value that the
    underlying [random()] returns: [0] when [howbig] is [0], else
    [r % howbig] (C remainder, on [long]). *)
Definition random (r howbig : Z) : Z :=
  if howbig =? 0 then 0 else Z.rem r howbig.

(** [ISR(TIMER2_OVF_vect)], one tick.  [r] is consulted only when the
    counter reaches zero. *)
Definition TIMER2_OVF_vect (r : Z) (st : blink) : blink :=
  let counter := uint8 (counter st - 1) in
  if counter =? 0 then
    let blinking := uint8 (blinking st + 1) in
    if negb (Z.land blinking 1 =? 0) then
      {| counter := uint8 (5 + random r 11); blinking := blinking; pin9 := LOW |}
    else
      {| counter := uint8 (8 + random r 120); blinking := blinking; pin9 := HIGH |}
  else
    {| counter := counter; blinking := blinking st; pin9 := pin9 st |}.

(** States the interrupt can be in: the initial one, and any state one
    tick after a reachable one, whatever [random()] returned. *)
Inductive reachable : blink -> Prop :=
| reach_init : reachable init
| reach_tick r st :
    0 <= r <= RANDOM_MAX -> reachable st -> reachable (TIMER2_OVF_vect r st).

End Eyes.

(** ** Debounce filter of [loop] *)

(** One pass through [loop] seen as a poll of the button: [pressed] is
    [digitalRead(TRIGGER) == LOW], [now] is [millis()], [debounceTime] the
    static of [loop].  Returns whether the announcement is started and the
    new value of [debounceTime]. *)
Definition poll (pressed : bool) (now debounceTime : Z) : bool * Z :=
  if pressed then
    if 0 <=? int32 (uint32 (now - debounceTime)) then (true, debounceTime)
    else (false, debounceTime)
  else (false, uint32 (now + 15)).

(** A sequence of polls: the edges reported and the final [debounceTime]. *)
Fixpoint polls (ps : list (bool * Z)) (debounceTime : Z) : list bool * Z :=
  match ps with
  | [] => ([], debounceTime)
  | (pressed, now) :: rest =>
      let (e, d) := poll pressed now debounceTime in
      let (es, d') := polls rest d in
      (e :: es, d')
  end.

(** Number of activation edges in a list of poll results. *)
Definition edges (es : list bool) : nat := List.length (filter id es).

(** ** C strings and the filename buffer of [playfile] *)

Definition NUL : ascii := Ascii.zero.

(** Carriage return and line feed, as [Serial.println] appends them. *)
Definition CRLF : string :=
  String (ascii_of_nat 13) (String (ascii_of_nat 10) EmptyString).

(** [strlen_P]: the characters before the first NUL.  A name is given by
    the characters of its literal; the terminator follows them. *)
Fixpoint strlen_P (s : string) : nat :=
  match s with
  | EmptyString => 0%nat
  | String c s' => if Ascii.eqb c NUL then 0%nat else S (strlen_P s')
  end.

(** The C string that starts at the head of [mem]; [None] when no
    terminator is found inside the array. *)
Fixpoint c_str (mem : list ascii) : option string :=
  match mem with
  | [] => None
  | c :: rest =>
      if Ascii.eqb c NUL then Some EmptyString
      else option_map (String c) (c_str rest)
  end.

(** [static char filename[] = "XXXXXXXX.WAV"]: thirteen bytes. *)
Definition filename_init : list ascii :=
  list_ascii_of_string "XXXXXXXX.WAV" ++ [NUL].

(** [memcpy_P(&buf[off], src, len)] *)
Definition memcpy_P (buf : list ascii) (off : nat) (src : string) (len : nat)
  : list ascii :=
  firstn off buf ++ firstn len (list_ascii_of_string src) ++ skipn (off + len) buf.

(** What every call of [playfile] relies on and leaves intact: the buffer
    has its thirteen bytes and ends in the extension and the terminator. *)
Definition filename_ok (buf : list ascii) : Prop :=
  List.length buf = 13%nat /\
  skipn 8 buf = list_ascii_of_string ".WAV" ++ [NUL].

(** A name that fits the 8.3 buffer and has no NUL among its characters. *)
Definition short_name (name : string) : Prop :=
  strlen_P name = String.length name /\ (String.length name <= 8)%nat.

(** ** State and error monad of the sketch *)

Definition M (S A : Type) : Type := S -> option (A * S).

Definition ret {S A : Type} (a : A) : M S A := fun st => Some (a, st).

Definition bind {S A B : Type} (m : M S A) (k : A -> M S B) : M S B :=
  fun st => match m st with
            | Some (a, st') => k a st'
            | None => None
            end.

(** Undefined behaviour of the C program. *)
Definition undefined {S A : Type} : M S A := fun _ => None.

Notation "x <- m ;; k" := (bind m (fun x => k))
  (at level 61, m at next level, right associativity).
Notation "m ;; k" := (bind m (fun _ => k))
  (at level 61, right associativity).

(** ** The Wave Shield as the sketch sees it *)

(** SD card and WaveHC library.  [file_open] is [file.open(root, name)],
    [wave_create] is [wave.create(file)]; [wave_play] starts the playback
    and returns the values of [playpos[1]] that the polling loop reads,
    one per iteration, until [wave.isplaying] is false. *)
Class WaveShield : Type := {
  World : Type;
  file_open : string -> World -> bool * World;
  wave_create : World -> bool * World;
  wave_play : World -> list Z * World
}.

(** Mode of the mouth LED pin 6: high impedance, or driven by
    [analogWrite] with the given duty. *)
Inductive pin_mode : Type :=
| INPUT
| PWM (b : Z).

(** What the sketch does to the outside, in order. *)
Inductive event : Type :=
| EvOpen (fullName : string)
| EvCreate
| EvPlay
| EvAnalogWrite (b : Z)
| EvPinModeInput
| EvSerial (text : string).

Record sketch {W : WaveShield} : Type := {
  LEDMOUTH : pin_mode;
  filename : list ascii;
  debounceTime : Z;
  trace : list event;
  world : World
}.

(** The names handed to [file.open], in order. *)
Fixpoint opened (tr : list event) : list string :=
  match tr with
  | [] => []
  | EvOpen n :: tr' => n :: opened tr'
  | _ :: tr' => opened tr'
  end.

(** The brightness values handed to [analogWrite], in order. *)
Fixpoint written (tr : list event) : list Z :=
  match tr with
  | [] => []
  | EvAnalogWrite b :: tr' => b :: written tr'
  | _ :: tr' => written tr'
  end.

(** Whether a playback is started. *)
Fixpoint plays (tr : list event) : bool :=
  match tr with
  | [] => false
  | EvPlay :: _ => true
  | _ :: tr' => plays tr'
  end.

Section Sketch.

Context {W : WaveShield}.

Definition emit (e : event) : M sketch unit :=
  fun st => Some (tt, {| LEDMOUTH := LEDMOUTH st; filename := filename st;
                         debounceTime := debounceTime st;
                         trace := trace st ++ [e]; world := world st |}).

(** [analogWrite(LEDMOUTH, b)]: makes the pin an output with duty [b]. *)
Definition analogWrite_LEDMOUTH (b : Z) : M sketch unit :=
  fun st => Some (tt, {| LEDMOUTH := PWM b; filename := filename st;
                         debounceTime := debounceTime st;
                         trace := trace st ++ [EvAnalogWrite b];
                         world := world st |}).

(** [pinMode(LEDMOUTH, INPUT)] *)
Definition pinMode_LEDMOUTH_INPUT : M sketch unit :=
  fun st => Some (tt, {| LEDMOUTH := INPUT; filename := filename st;
                         debounceTime := debounceTime st;
                         trace := trace st ++ [EvPinModeInput];
                         world := world st |}).

Definition Serial_print (text : string) : M sketch unit := emit (EvSerial text).

Definition Serial_println (text : string) : M sketch unit :=
  emit (EvSerial (text ++ CRLF)).

(** [memcpy_P(&filename[off], name, len)]; a negative [off] would write
    before the array. *)
Definition memcpy_P_filename (off : Z) (name : string) (len : nat)
  : M sketch unit :=
  fun st =>
    if off <? 0 then None
    else Some (tt, {| LEDMOUTH := LEDMOUTH st;
                      filename := memcpy_P (filename st) (Z.to_nat off) name len;
                      debounceTime := debounceTime st;
                      trace := trace st; world := world st |}).

(** The string that the pointer [&filename[off]] designates now. *)
Definition fullName_at (off : Z) : M sketch string :=
  fun st =>
    if off <? 0 then None
    else match c_str (skipn (Z.to_nat off) (filename st)) with
         | Some s => Some (s, st)
         | None => None
         end.

Definition with_world {A : Type} (f : World -> A * World) : M sketch A :=
  fun st =>
    let (a, w) := f (world st) in
    Some (a, {| LEDMOUTH := LEDMOUTH st; filename := filename st;
                debounceTime := debounceTime st;
                trace := trace st; world := w |}).

(** [file.open(root, fullName)] *)
Definition file_open_root (off : Z) : M sketch bool :=
  name <- fullName_at off ;;
  emit (EvOpen name) ;;
  with_world (file_open name).

(** [wave.create(file)] *)
Definition wave_create_file : M sketch bool :=
  emit EvCreate ;; with_world wave_create.

(** [Serial.print(fullName)] *)
Definition Serial_print_at (off : Z) : M sketch unit :=
  name <- fullName_at off ;; Serial_print name.

(** The body of [for(wave.play(); wave.isplaying; )] over the samples the
    loop reads. *)
Fixpoint mouth_loop (samples : list Z) (w : Mouth.window) : M sketch unit :=
  match samples with
  | [] => ret tt
  | s :: rest =>
      let (w', b) := Mouth.step w s in
      match b with
      | Some b => analogWrite_LEDMOUTH b
      | None => ret tt
      end ;;
      mouth_loop rest w'
  end.

(** [void playfile(const char *name)] for a non-NULL [name]. *)
Definition playfile (name : string) : M sketch unit :=
  let len := strlen_P name in
  let fullName := 8 - Z.of_nat len in
  memcpy_P_filename fullName name len ;;
  opened <- file_open_root fullName ;;
  if opened : bool then
    created <- wave_create_file ;;
    if created : bool then
      emit EvPlay ;;
      samples <- with_world wave_play ;;
      mouth_loop samples Mouth.init
    else
      Serial_print_at fullName ;;
      Serial_println ": Not a valid WAV"
  else
    Serial_print "Couldn't open file: " ;;
    Serial_print_at fullName.

(** [playfile] applied to the result of a [pgm_read_word] table read:
    reading outside the table or playing NULL is undefined. *)
Definition play_arg (a : option cptr) : M sketch unit :=
  match a with
  | Some (Str name) => playfile name
  | Some NULL => undefined
  | None => undefined
  end.

Definition play_P (t : table) (i : Z) : M sketch unit :=
  play_arg (pgm_read_word (table_data t) i).

Fixpoint play_all (args : list (option cptr)) : M sketch unit :=
  match args with
  | [] => ret tt
  | a :: rest => play_arg a ;; play_all rest
  end.

Definition get_debounceTime : M sketch Z := fun st => Some (debounceTime st, st).

Definition set_debounceTime (d : Z) : M sketch unit :=
  fun st => Some (tt, {| LEDMOUTH := LEDMOUTH st; filename := filename st;
                         debounceTime := d;
                         trace := trace st; world := world st |}).

(** One pass through [loop()].  [pressed] is [digitalRead(TRIGGER) == LOW],
    [millis] the value of [millis()], and [hour], [minute] what [rtc.now()]
    holds (read only when the announcement starts). *)
Definition loop (pressed : bool) (millis hour minute : Z) : M sketch unit :=
  if pressed then
    debounceTime <- get_debounceTime ;;
    if 0 <=? int32 (uint32 (millis - debounceTime)) then
      let h := hour in
      let m := minute in
      let hi := uint8 (m / 10) in
      let lo := uint8 (m mod 10) in
      let pm := 0 in
      let '(pm, h) := if 12 <=? h then (1, uint8 (h - 12)) else (pm, h) in
      playfile annc ;;
      play_P Hours h ;;
      (if lo =? 0 then
         play_P MTens hi
       else if hi =? 1 then
         play_P MTeens (lo - 1)
       else
         (play_P MTenX hi ;;
          play_P Mins (lo - 1))) ;;
      play_P Ampm pm ;;
      pinMode_LEDMOUTH_INPUT
    else ret tt
  else
    set_debounceTime (uint32 (millis + 15)).

(** The end of [setup()]: the startup sound, then the mouth switched off. *)
Definition setup_end : M sketch unit :=
  playfile boot ;;
  pinMode_LEDMOUTH_INPUT.

(** The sketch when [setup] reaches its last two lines: mouth pin still an
    input, statics at their initial values. *)
Definition power_on (w : World) : sketch :=
  {| LEDMOUTH := INPUT; filename := filename_init; debounceTime := 0;
     trace := []; world := w |}.

(** The announcement as a whole: the clips of the phrase in order, then
    the mouth switched off.  [loop] is shown below to do exactly this when
    the debounce filter lets the press through. *)
Definition announce (hour minute : Z) : M sketch unit :=
  play_all (phrase hour minute) ;;
  pinMode_LEDMOUTH_INPUT.

(** The mouth pin after the brightness values [bs] have been written in
    order to a pin that was in mode [p]. *)
Definition after_writes (p : pin_mode) (bs : list Z) : pin_mode :=
  fold_left (fun _ b => PWM b) bs p.

End Sketch.

(** ** A concrete card, for examples *)

(** Contents of an SD card by file name: no file (m5.WAV is missing), or
    whether the header is a valid WAV (pm.WAV is not) and the samples the
    polling loop sees while it plays. *)
Definition example_card (name : string) : option (bool * list Z) :=
  if String.eqb name "m5.WAV" then None
  else if String.eqb name "pm.WAV" then Some (false, [])
  else Some (true, [3; -7; 12] ++ repeat 5 254 ++ [0; 1]).

(** The shield with that card; its state is the file currently open. *)
Definition example_shield : WaveShield :=
  {| World := bool * list Z;
     file_open := fun name w =>
       match example_card name with
       | Some f => (true, f)
       | None => (false, w)
       end;
     wave_create := fun w => (fst w, w);
     wave_play := fun w => (snd w, w) |}.

(** The sketch at the end of [setup] with that card, no file open yet. *)
Definition example_start : @sketch example_shield :=
  @power_on example_shield (false, []).

(** ** Runs of the sketch, [setup], and tests used in the properties *)

(** Equality test on the arguments of [playfile]. *)
Definition cptr_eqb (a b : cptr) : bool :=
  match a, b with
  | Str s, Str t => String.eqb s t
  | NULL, NULL => true
  | _, _ => false
  end.

Definition arg_eqb (a b : option cptr) : bool :=
  match a, b with
  | Some x, Some y => cptr_eqb x y
  | None, None => true
  | _, _ => false
  end.

Fixpoint args_eqb (p q : list (option cptr)) : bool :=
  match p, q with
  | [], [] => true
  | a :: p', b :: q' => arg_eqb a b && args_eqb p' q'
  | _, _ => false
  end.

(** The integers [0 .. n-1]. *)
Definition upto (n : nat) : list Z := map Z.of_nat (seq 0 n).

(** The clock readings: hours 0..23 with minutes 0..59. *)
Definition clock_readings : list (Z * Z) := list_prod (upto 24) (upto 60).

(** Whether some clock reading has [name] among the clips of its phrase. *)
Definition announced (name : string) : bool :=
  existsb (fun t => existsb (arg_eqb (Some (Str name))) (phrase (fst t) (snd t)))
          clock_readings.

(** Whether any two different minutes of 0..59 have different minute
    phrases. *)
Definition minute_phrases_differ : bool :=
  forallb (fun m =>
             forallb (fun m' =>
                        (m =? m') ||
                        negb (args_eqb (minute_phrase m) (minute_phrase m')))
                     (upto 60))
          (upto 60).

(** The file that [playfile] opens for an argument that is a name. *)
Definition file_of (a : option cptr) : string :=
  match a with
  | Some (Str name) => name ++ ".WAV"
  | _ => EmptyString
  end.

(** The files a sequence of passes through [loop] opens, by the debounce
    filter and the phrase rules alone: each pass is the button level, the
    value of [millis()] and the clock reading. *)
Fixpoint run_files (ps : list (bool * Z * Z * Z)) (debounceTime : Z)
  : list string :=
  match ps with
  | [] => []
  | (pressed, now, h, m) :: rest =>
      let (edge, d) := poll pressed now debounceTime in
      (if edge then map file_of (phrase h m) else []) ++ run_files rest d
  end.

(** A pass whose clock reading is a time of day. *)
Definition clock_ok (p : bool * Z * Z * Z) : Prop :=
  0 <= snd (fst p) < 24 /\ 0 <= snd p < 60.

(** A file name of one of the sketch's clips. *)
Definition clip_file (f : string) : Prop :=
  exists name, In name clip_names /\ f = (name ++ ".WAV")%string.

(** Successive ticks of the eye-blink interrupt, one per value of
    [random()] in [rs]. *)
Definition eye_ticks (rs : list Z) (st : Eyes.blink) : Eyes.blink :=
  fold_left (fun st r => Eyes.TIMER2_OVF_vect r st) rs st.

(** *** [setup] *)

Inductive pin : Type :=
| Digital (n : Z)
| Analog (n : Z).

Definition TRIGGER : pin := Analog 0.
Definition LEDEYES : pin := Digital 9.

Inductive direction : Type := INPUT_PULLUP | OUTPUT.

Inductive register : Type := TCCR2A | TCCR2B | TIMSK2.

(** Bit numbers of the ATmega328P timer 2 registers, and [_BV]. *)
Definition CS20 : Z := 0.
Definition CS21 : Z := 1.
Definition CS22 : Z := 2.
Definition TOIE2 : Z := 0.
Definition _BV (bit : Z) : Z := Z.shiftl 1 bit.

(** What [setup] does to the board before the startup sound, in order. *)
Inductive boot_event : Type :=
| BDacInit
| BDacSend (data : Z)
| BDelayMicroseconds (us : Z)
| BPinMode (p : pin) (d : direction)
| BDigitalWrite (p : pin) (l : Eyes.level)
| BSerialBegin (baud : Z)
| BWireBegin
| BRtcBegin
| BRtcAdjust
| BSerialPrintln (text : string)
| BAssign (r : register) (v : Z)
| BOrAssign (r : register) (v : Z).

(** What the hardware answers during [setup]: [rtc.isrunning()],
    [card.init()], [vol.init(card)], [root.openRoot(vol)]. *)
Record board : Type := {
  rtc_isrunning : bool;
  card_init : bool;
  vol_init : bool;
  root_openRoot : bool
}.

(** [for(int i=0; i<2048; i++) { mcpDacSend(i); delayMicroseconds(10); }] *)
Definition dac_ramp : list boot_event :=
  flat_map (fun i => [BDacSend i; BDelayMicroseconds 10]) (upto 2048).

Definition setup_pins : list boot_event :=
  [BPinMode TRIGGER INPUT_PULLUP;
   BPinMode LEDEYES OUTPUT; BDigitalWrite LEDEYES Eyes.HIGH;
   BPinMode (Digital 7) OUTPUT; BDigitalWrite (Digital 7) Eyes.LOW;
   BPinMode (Digital 8) OUTPUT; BDigitalWrite (Digital 8) Eyes.LOW;
   BPinMode (Analog 1) OUTPUT; BDigitalWrite (Analog 1) Eyes.LOW;
   BPinMode (Analog 2) OUTPUT; BDigitalWrite (Analog 2) Eyes.LOW;
   BPinMode (Analog 3) OUTPUT; BDigitalWrite (Analog 3) Eyes.HIGH].

(** The Timer/Counter 2 set-up that starts the eye-blink interrupt. *)
Definition setup_timer2 : list boot_event :=
  [BAssign TCCR2A 0;
   BAssign TCCR2B (Z.lor (Z.lor (_BV CS22) (_BV CS21)) (_BV CS20));
   BOrAssign TIMSK2 (_BV TOIE2)].

Section Run.

Context {W : WaveShield}.

(** Successive passes through [loop()], as the Arduino core calls it
    forever after [setup()]. *)
Fixpoint loops (ps : list (bool * Z * Z * Z)) : M sketch unit :=
  match ps with
  | [] => ret tt
  | (pressed, now, h, m) :: rest => loop pressed now h m ;; loops rest
  end.

(** How [setup] ends: halted in [error] (message printed, then
    [for(;;);]), or completed with the sketch ready for [loop]; the log is
    what was done to the board up to then. *)
Inductive setup_result : Type :=
| Halted (log : list boot_event)
| Ready (log : list boot_event) (st : sketch)
| Undefined.

(** [void error(const __FlashStringHelper *error)] *)
Definition error (msg : string) (log : list boot_event) : setup_result :=
  Halted (log ++ [BSerialPrintln msg]).

(** [void setup()] *)
Definition setup (b : board) (w : World) : setup_result :=
  let log := [BDacInit] ++ dac_ramp ++ setup_pins ++
             [BSerialBegin 9600; BWireBegin; BRtcBegin] in
  let log := if rtc_isrunning b then log
             else log ++ [BRtcAdjust;
                          BSerialPrintln "RTC not running at startup."] in
  if negb (card_init b) then error "Card init failed" log
  else if negb (vol_init b) then error "No partition" log
  else if negb (root_openRoot b) then error "Couldn't open dir" log
  else
    let log := log ++ setup_timer2 in
    match setup_end (power_on w) with
    | Some (_, st) => Ready log st
    | None => Undefined
    end.

End Run.

(** A card on which every file opens, is a valid WAV and plays the given
    samples; and the sketch at the end of [setup] with that card. *)
Definition constant_shield (samples : list Z) : WaveShield :=
  {| World := unit;
     file_open := fun _ w => (true, w);
     wave_create := fun w => (true, w);
     wave_play := fun w => (samples, w) |}.

Definition constant_start (samples : list Z) : @sketch (constant_shield samples) :=
  @power_on (constant_shield samples) tt.

(** * Properties *)

(** [lia] decides goals with division and remainder by constants. *)
Ltac Zify.zify_post_hook ::= Z.to_euclidean_division_equations.

(** ** Fixed-width integers *)

Lemma uint8_small (x : Z) : 0 <= x < 256 -> uint8 x = x.
Proof. unfold uint8. lia. Qed.

Lemma int8_small (x : Z) : is_int8 x -> int8 x = x.
Proof. unfold int8, is_int8. lia. Qed.

Lemma int8_range (x : Z) : is_int8 (int8 x).
Proof. unfold int8, is_int8. lia. Qed.

Lemma int8_succ (x : Z) : int8 (int8 x + 1) = int8 (x + 1).
Proof. unfold int8. lia. Qed.

Lemma int8_zero_iff (x : Z) : int8 x = 0 <-> x mod 256 = 0.
Proof. unfold int8. lia. Qed.

Lemma int16_small (x : Z) : -32768 <= x <= 32767 -> int16 x = x.
Proof. unfold int16. lia. Qed.

Lemma minute_digits (m : Z) :
  0 <= m < 60 ->
  uint8 (m / 10) = m / 10 /\ uint8 (m mod 10) = m mod 10 /\
  0 <= m / 10 <= 5 /\ 0 <= m mod 10 <= 9.
Proof. unfold uint8. lia. Qed.

(** ** Time-to-phrase translation *)

(** Case split of an index [0 <= i < n], [n] a numeral, into its values. *)
Ltac enum_index i :=
  repeat match goal with
    | H : 0 <= i < 0 |- _ => exfalso; lia
    | H : 0 <= i < ?n |- _ =>
        let E := fresh "E" in
        assert (E : i = n - 1 \/ 0 <= i < n - 1) by lia; clear H;
        destruct E as [E | H]; [cbn in E; subst i | cbn in H]
    end.

Lemma read_in_table (t : table) (i : Z) :
  0 <= i < Z.of_nat (List.length (table_data t)) ->
  (t, i) <> (MTenX, 1) ->
  lookup_ok (t, i).
Proof.
  intros Hi Hnull. split; [exact Hi|]. split; [exact Hnull|].
  unfold read; cbn [fst snd] in *.
  destruct t; cbn in Hi; enum_index i; try congruence;
    (eexists; split; [reflexivity | unfold clip_names; cbn; tauto]).
Qed.

Lemma lookups_ok (h m : Z) :
  0 <= h < 24 -> 0 <= m < 60 -> Forall lookup_ok (lookups h m).
Proof.
  intros Hh Hm. destruct (minute_digits m Hm) as (Ehi & Elo & Hhi & Hlo).
  unfold lookups, minute_lookups. rewrite Ehi, Elo.
  assert (Hh' : uint8 (h - 12) = h - 12 \/ h < 12) by (unfold uint8; lia).
  destruct (12 <=? h) eqn:H12; [apply Z.leb_le in H12 | apply Z.leb_gt in H12];
    destruct (m mod 10 =? 0) eqn:El;
    [apply Z.eqb_eq in El | apply Z.eqb_neq in El
    |apply Z.eqb_eq in El | apply Z.eqb_neq in El];
    try (destruct (m / 10 =? 1) eqn:Eh;
         [apply Z.eqb_eq in Eh | apply Z.eqb_neq in Eh]);
    cbn [app];
    repeat (apply Forall_cons || apply Forall_nil);
    apply read_in_table; cbn; (lia || (intros [=]; lia)).
Qed.

Lemma phrase_shape (h m : Z) :
  exists hour period,
    phrase h m = Some (Str annc) :: hour :: minute_phrase m ++ [period].
Proof.
  unfold phrase, lookups, minute_phrase.
  destruct (12 <=? h); cbn [app map]; rewrite map_app; cbn [map];
    do 2 eexists; reflexivity.
Qed.

Lemma minute_part_length (m : Z) :
  0 <= m < 60 ->
  List.length (minute_phrase m) =
    if (m mod 10 =? 0) || ((11 <=? m) && (m <=? 19)) then 1%nat else 2%nat.
Proof.
  intros Hm. destruct (minute_digits m Hm) as (Ehi & Elo & Hhi & Hlo).
  unfold minute_phrase, minute_lookups. rewrite Ehi, Elo.
  destruct (m mod 10 =? 0) eqn:El; [reflexivity|]. apply Z.eqb_neq in El.
  destruct (m / 10 =? 1) eqn:Eh;
    [apply Z.eqb_eq in Eh | apply Z.eqb_neq in Eh]; cbn [orb].
  - replace (11 <=? m) with true by (symmetry; apply Z.leb_le; lia).
    replace (m <=? 19) with true by (symmetry; apply Z.leb_le; lia).
    reflexivity.
  - destruct (11 <=? m) eqn:E1; [|reflexivity]. apply Z.leb_le in E1.
    destruct (m <=? 19) eqn:E2; [|reflexivity]. apply Z.leb_le in E2. lia.
Qed.

(** The phrase has four or five entries: four exactly when the ones digit
    of the minute is 0 or the minute is 11..19; each is a clip. *)
Lemma phrase_count (h m : Z) :
  0 <= h < 24 -> 0 <= m < 60 ->
  (4 <= List.length (phrase h m) <= 5)%nat /\
  (List.length (phrase h m) = 4%nat <-> (m mod 10 = 0 \/ 11 <= m <= 19)) /\
  Forall is_clip (phrase h m).
Proof.
  intros Hh Hm.
  assert (Hlen : List.length (phrase h m) = (3 + List.length (minute_phrase m))%nat).
  { destruct (phrase_shape h m) as (hc & pc & ->). cbn [List.length].
    rewrite length_app. cbn. lia. }
  rewrite Hlen, (minute_part_length m Hm).
  split; [|split].
  - destruct (_ || _); cbn; lia.
  - destruct (m mod 10 =? 0) eqn:El;
      [apply Z.eqb_eq in El | apply Z.eqb_neq in El]; cbn [orb].
    + cbn. split; [intros _; now left | reflexivity].
    + destruct (11 <=? m) eqn:E1;
        [apply Z.leb_le in E1 | apply Z.leb_gt in E1]; cbn [andb].
      * destruct (m <=? 19) eqn:E2;
          [apply Z.leb_le in E2 | apply Z.leb_gt in E2]; cbn; lia.
      * cbn. lia.
  - unfold phrase. constructor.
    + exists annc. split; [reflexivity | unfold clip_names; cbn; tauto].
    + apply Forall_map. eapply Forall_impl; [|apply (lookups_ok h m Hh Hm)].
      intros l (_ & _ & name & Hr & Hin). exists name. now split.
Qed.

(** C3: the translation is total over the 1440 clock readings: for every
    hour in 0..23 and minute in 0..59 each table read is inside its table
    and yields a clip name, never the NULL at index 1 of [mTenX]; [mTenX]
    is read only when the ones digit is nonzero and the tens digit is not
    1. *)
Theorem translate_total (h m : Z) :
  0 <= h < 24 -> 0 <= m < 60 ->
  Forall lookup_ok (lookups h m) /\
  Forall is_clip (phrase h m) /\
  (forall i, In (MTenX, i) (lookups h m) ->
             i = m / 10 /\ m mod 10 <> 0 /\ m / 10 <> 1 /\
             exists name, pgm_read_word mTenX i = Some (Str name)).
Proof.
  intros Hh Hm. pose proof (lookups_ok h m Hh Hm) as Hok.
  split; [exact Hok|]. split.
  - unfold phrase. constructor.
    + exists annc. split; [reflexivity | unfold clip_names; cbn; tauto].
    + apply Forall_map. eapply Forall_impl; [|exact Hok].
      intros l (_ & _ & name & Hr & Hin). exists name. now split.
  - intros i Hin.
    assert (Hname : exists name, pgm_read_word mTenX i = Some (Str name)).
    { rewrite Forall_forall in Hok. destruct (Hok _ Hin) as (_ & _ & n & Hr & _).
      exists n. exact Hr. }
    destruct (minute_digits m Hm) as (Ehi & Elo & Hhi & Hlo).
    revert Hin. unfold lookups, minute_lookups. rewrite Ehi, Elo.
    destruct (12 <=? h);
      (destruct (m mod 10 =? 0) eqn:El;
       [apply Z.eqb_eq in El | apply Z.eqb_neq in El];
       [|destruct (m / 10 =? 1) eqn:Eh;
         [apply Z.eqb_eq in Eh | apply Z.eqb_neq in Eh]]);
      cbn [app In]; intros Hin;
      repeat match goal with
        | H : _ \/ _ |- _ => destruct H
        | H : False |- _ => destruct H
        | H : (_, _) = (_, _) |- _ => inversion H; clear H; subst
        end; auto.
Qed.

Lemma translate_total_witness :
  Forall lookup_ok (lookups 23 45) /\
  Forall is_clip (phrase 23 45) /\
  In (MTenX, 4) (lookups 23 45) /\
  (4 = 45 / 10 /\ 45 mod 10 <> 0 /\ 45 / 10 <> 1 /\
   exists name, pgm_read_word mTenX 4 = Some (Str name)).
Proof.
  destruct (translate_total 23 45) as (Hok & Hclips & Htenx); [lia | lia |].
  assert (Hin : In (MTenX, 4) (lookups 23 45)) by (cbn; tauto).
  split; [exact Hok|]. split; [exact Hclips|]. split; [exact Hin|].
  exact (Htenx 4 Hin).
Defined.

(** The three cases of the minute part of the phrase, and the phrases of
    four clock readings. *)
Lemma minute_phrase_cases (m : Z) :
  0 <= m < 60 ->
  let hi := m / 10 in
  let lo := m mod 10 in
  (lo = 0 ->
   exists tens, minute_phrase m = [Some (Str tens)] /\
                pgm_read_word mTens hi = Some (Str tens)) /\
  (11 <= m <= 19 ->
   exists teen, minute_phrase m = [Some (Str teen)] /\
                pgm_read_word mTeens (m - 11) = Some (Str teen)) /\
  (lo <> 0 -> ~ 11 <= m <= 19 ->
   exists prefix ones,
     minute_phrase m = [Some (Str prefix); Some (Str ones)] /\
     pgm_read_word mTenX hi = Some (Str prefix) /\
     pgm_read_word mins (lo - 1) = Some (Str ones)) /\
  ~ (lo = 0 /\ 11 <= m <= 19) /\
  (forall h, exists hour period,
      phrase h m = Some (Str annc) :: hour :: minute_phrase m ++ [period]) /\
  phrase 23 45 = map (fun n => Some (Str n)) [annc; h11; m4x; m5; pm] /\
  phrase 0 0 = map (fun n => Some (Str n)) [annc; h12; m00; am] /\
  phrase 13 5 = map (fun n => Some (Str n)) [annc; h01; m0x; m5; pm] /\
  phrase 0 30 = map (fun n => Some (Str n)) [annc; h12; m30; am].
Proof.
  intros Hm hi lo. subst hi lo.
  destruct (minute_digits m Hm) as (Ehi & Elo & Hhi & Hlo).
  unfold minute_phrase, minute_lookups. rewrite Ehi, Elo.
  repeat split; try reflexivity; try lia.
  - intros El. rewrite El. cbn [Z.eqb map]. unfold read; cbn [fst snd table_data].
    destruct (read_in_table MTens (m / 10)) as (_ & _ & n & Hr & _);
      [cbn; lia | congruence |].
    unfold read in Hr; cbn [fst snd table_data] in Hr. rewrite Hr. eauto.
  - intros Hteen.
    assert (El : m mod 10 <> 0) by lia.
    assert (Eh : (m / 10 =? 1) = true) by (apply Z.eqb_eq; lia).
    apply Z.eqb_neq in El. rewrite El, Eh. cbn [map]. unfold read; cbn [fst snd table_data].
    replace (m mod 10 - 1) with (m - 11) by lia.
    destruct (read_in_table MTeens (m - 11)) as (_ & _ & n & Hr & _);
      [cbn; lia | congruence |].
    unfold read in Hr; cbn [fst snd table_data] in Hr. rewrite Hr. eauto.
  - intros El Hteen.
    assert (Eh : m / 10 <> 1) by lia.
    apply Z.eqb_neq in El, Eh. rewrite El, Eh.
    cbn [map]. unfold read; cbn [fst snd table_data]. apply Z.eqb_neq in El, Eh.
    destruct (read_in_table MTenX (m / 10)) as (_ & _ & n & Hr & _);
      [cbn; lia | intros [=]; lia |].
    destruct (read_in_table Mins (m mod 10 - 1)) as (_ & _ & n' & Hr' & _);
      [cbn; lia | congruence |].
    unfold read in Hr, Hr'; cbn [fst snd table_data] in Hr, Hr'.
    rewrite Hr, Hr'. eauto.
  - intros h. destruct (phrase_shape h m) as (hc & pc & E).
    exists hc, pc. rewrite E. unfold minute_phrase, minute_lookups.
    rewrite Ehi, Elo. reflexivity.
Qed.

(** ** Mouth envelope *)

Lemma mouth_init_inv : Mouth.inv Mouth.init.
Proof. unfold Mouth.inv, Mouth.init, is_int8; cbn. lia. Qed.

(** An iteration at a window boundary writes the LED and restarts the
    range at the current sample. *)
Lemma mouth_step_flush (w : Mouth.window) (s : Z) :
  Mouth.inv w -> int8 (Mouth.counter w + 1) = 0 ->
  Mouth.step w s =
    ({| Mouth.lo := s; Mouth.hi := s; Mouth.counter := 0 |},
     Some (Mouth.clamp ((Mouth.hi w - Mouth.lo w) * 4) 0 255)).
Proof.
  intros (Hlo & Hhi & Hc & Hle) E. unfold Mouth.step. rewrite E. cbn [Z.eqb].
  unfold is_int8 in *. rewrite int16_small by lia.
  unfold Mouth.clamp. destruct (Z.ltb_spec 255 ((Mouth.hi w - Mouth.lo w) * 4));
    do 2 f_equal; lia.
Qed.

(** Any other iteration only folds the sample into the range. *)
Lemma mouth_step_quiet (w : Mouth.window) (s : Z) :
  Mouth.lo w <= Mouth.hi w -> int8 (Mouth.counter w + 1) <> 0 ->
  Mouth.step w s =
    ({| Mouth.lo := Z.min (Mouth.lo w) s; Mouth.hi := Z.max (Mouth.hi w) s;
        Mouth.counter := int8 (Mouth.counter w + 1) |}, None).
Proof.
  intros Hle E. unfold Mouth.step. apply Z.eqb_neq in E. rewrite E.
  destruct (Z.ltb_spec s (Mouth.lo w)); [|destruct (Z.ltb_spec (Mouth.hi w) s)];
    do 2 f_equal; lia.
Qed.

Lemma mouth_step_inv (w : Mouth.window) (s : Z) :
  Mouth.inv w -> is_int8 s -> Mouth.inv (fst (Mouth.step w s)).
Proof.
  intros Hw Hs. destruct (Z.eq_dec (int8 (Mouth.counter w + 1)) 0) as [E | E].
  - rewrite mouth_step_flush by assumption. unfold Mouth.inv, is_int8 in *; cbn. lia.
  - destruct Hw as (Hlo & Hhi & Hc & Hle). rewrite mouth_step_quiet by assumption.
    pose proof (int8_range (Mouth.counter w + 1)).
    unfold Mouth.inv, is_int8 in *; cbn. lia.
Qed.

Lemma mouth_step_brightness (w : Mouth.window) (s b : Z) :
  Mouth.inv w -> snd (Mouth.step w s) = Some b -> Mouth.brightness b.
Proof.
  intros Hw. destruct (Z.eq_dec (int8 (Mouth.counter w + 1)) 0) as [E | E].
  - rewrite mouth_step_flush by assumption. cbn. intros [= <-].
    destruct Hw as (Hlo & Hhi & Hc & Hle).
    unfold Mouth.brightness, Mouth.clamp. lia.
  - destruct Hw as (Hlo & Hhi & Hc & Hle). rewrite mouth_step_quiet by assumption.
    discriminate.
Qed.

Lemma mouth_run_cons (s : Z) (rest : list Z) (w : Mouth.window) :
  Mouth.run (s :: rest) w =
    (fst (Mouth.run rest (fst (Mouth.step w s))),
     match snd (Mouth.step w s) with
     | Some b => b :: snd (Mouth.run rest (fst (Mouth.step w s)))
     | None => snd (Mouth.run rest (fst (Mouth.step w s)))
     end).
Proof.
  cbn [Mouth.run]. destruct (Mouth.step w s) as [w1 b].
  cbn [fst snd]. destruct (Mouth.run rest w1). reflexivity.
Qed.

Lemma mouth_run_app (l1 l2 : list Z) (w : Mouth.window) :
  Mouth.run (l1 ++ l2) w =
    (fst (Mouth.run l2 (fst (Mouth.run l1 w))),
     snd (Mouth.run l1 w) ++ snd (Mouth.run l2 (fst (Mouth.run l1 w)))).
Proof.
  revert w. induction l1 as [|s l1 IH]; intros w.
  - cbn. now destruct (Mouth.run l2 w).
  - rewrite <- app_comm_cons, !mouth_run_cons, IH. cbn [fst snd].
    destruct (snd (Mouth.step w s)); reflexivity.
Qed.

Lemma mouth_run_inv (samples : list Z) (w : Mouth.window) :
  Mouth.inv w -> Forall is_int8 samples ->
  Mouth.inv (fst (Mouth.run samples w)) /\
  Forall Mouth.brightness (snd (Mouth.run samples w)).
Proof.
  intros Hw Hs. revert w Hw.
  induction Hs as [|s rest Hs _ IH]; intros w Hw.
  - cbn. auto.
  - rewrite mouth_run_cons. cbn [fst snd].
    destruct (IH _ (mouth_step_inv w s Hw Hs)) as [Hi Hb].
    split; [exact Hi|].
    destruct (snd (Mouth.step w s)) as [b|] eqn:E; [|exact Hb].
    constructor; [|exact Hb]. exact (mouth_step_brightness w s b Hw E).
Qed.

Lemma mouth_run_counter (samples : list Z) (w : Mouth.window) :
  is_int8 (Mouth.counter w) ->
  Mouth.counter (fst (Mouth.run samples w)) =
    int8 (Mouth.counter w + Z.of_nat (List.length samples)).
Proof.
  revert w. induction samples as [|s rest IH]; intros w Hc.
  - cbn. rewrite Z.add_0_r. symmetry. now apply int8_small.
  - rewrite mouth_run_cons. cbn [fst].
    assert (Ec : Mouth.counter (fst (Mouth.step w s)) = int8 (Mouth.counter w + 1)).
    { unfold Mouth.step. destruct (_ =? _); [reflexivity|].
      destruct (_ <? _); [reflexivity|]. destruct (_ <? _); reflexivity. }
    rewrite IH by (rewrite Ec; apply int8_range). rewrite Ec.
    cbn [List.length]. unfold int8. lia.
Qed.

(** Within a window: while no boundary is crossed, the run writes nothing
    and leaves the smallest and largest sample seen in [lo] and [hi]. *)
Lemma mouth_run_quiet (samples : list Z) (w : Mouth.window) :
  Mouth.lo w <= Mouth.hi w ->
  Mouth.counter w mod 256 + Z.of_nat (List.length samples) <= 255 ->
  snd (Mouth.run samples w) = [] /\
  Mouth.lo (fst (Mouth.run samples w)) = fold_left Z.min samples (Mouth.lo w) /\
  Mouth.hi (fst (Mouth.run samples w)) = fold_left Z.max samples (Mouth.hi w).
Proof.
  revert w. induction samples as [|s rest IH]; intros w Hle Hpos.
  - cbn. auto.
  - cbn [List.length] in Hpos.
    assert (E : int8 (Mouth.counter w + 1) <> 0) by (unfold int8; lia).
    rewrite mouth_run_cons, (mouth_step_quiet w s Hle E). cbn [fst snd fold_left].
    apply IH; cbn; [lia | unfold int8; lia].
Qed.

Lemma mouth_minimum_spec (s0 : Z) (rest : list Z) :
  In (Mouth.minimum s0 rest) (s0 :: rest) /\
  Forall (fun x => Mouth.minimum s0 rest <= x) (s0 :: rest).
Proof.
  unfold Mouth.minimum. revert s0. induction rest as [|x rest IH]; intros s0.
  - cbn. split; [now left | constructor; [lia | constructor]].
  - cbn [fold_left]. destruct (IH (Z.min s0 x)) as [Hin Hall].
    inversion Hall as [|y l Hy Hrest]; subst. split.
    + destruct Hin as [E | Hin]; [|now right; right].
      rewrite <- E. destruct (Z.min_spec s0 x) as [[_ ->] | [_ ->]];
        [now left | now right; left].
    + constructor; [lia|]. constructor; [lia | exact Hrest].
Qed.

Lemma mouth_maximum_spec (s0 : Z) (rest : list Z) :
  In (Mouth.maximum s0 rest) (s0 :: rest) /\
  Forall (fun x => x <= Mouth.maximum s0 rest) (s0 :: rest).
Proof.
  unfold Mouth.maximum. revert s0. induction rest as [|x rest IH]; intros s0.
  - cbn. split; [now left | constructor; [lia | constructor]].
  - cbn [fold_left]. destruct (IH (Z.max s0 x)) as [Hin Hall].
    inversion Hall as [|y l Hy Hrest]; subst. split.
    + destruct Hin as [E | Hin]; [|now right; right].
      rewrite <- E. destruct (Z.max_spec s0 x) as [[_ ->] | [_ ->]];
        [now right; left | now left].
    + constructor; [lia|]. constructor; [lia | exact Hrest].
Qed.

(** The loop body after a complete window, and inside a window, on the
    locals alone. *)
Lemma window_step (pre : list Z) (s : Z) :
  Forall is_int8 pre ->
  let w := fst (Mouth.run pre Mouth.init) in
  (Z.of_nat (List.length pre) mod 256 <> 0 ->
   snd (Mouth.step w s) = None /\
   Mouth.lo (fst (Mouth.step w s)) = Z.min (Mouth.lo w) s /\
   Mouth.hi (fst (Mouth.step w s)) = Z.max (Mouth.hi w) s) /\
  (forall front s0 rest,
      pre = front ++ s0 :: rest ->
      Z.of_nat (List.length front) mod 256 = 0 ->
      List.length rest = 255%nat ->
      Mouth.lo w = Mouth.minimum s0 rest /\
      Mouth.hi w = Mouth.maximum s0 rest /\
      snd (Mouth.step w s) =
        Some (Mouth.clamp ((Mouth.hi w - Mouth.lo w) * 4) 0 255) /\
      Mouth.lo (fst (Mouth.step w s)) = s /\
      Mouth.hi (fst (Mouth.step w s)) = s).
Proof.
  intros Hpre w.
  destruct (mouth_run_inv pre Mouth.init mouth_init_inv Hpre) as [Hw _].
  fold w in Hw.
  assert (Hc : Mouth.counter w = int8 (-1 + Z.of_nat (List.length pre))).
  { subst w. rewrite mouth_run_counter; [reflexivity|].
    unfold is_int8; cbn; lia. }
  split.
  - intros Hmod.
    assert (E : int8 (Mouth.counter w + 1) <> 0).
    { rewrite Hc. unfold int8. lia. }
    destruct Hw as (_ & _ & _ & Hle).
    rewrite (mouth_step_quiet w s Hle E). cbn. auto.
  - intros front s0 rest Epre Hfront Hrest.
    assert (E : int8 (Mouth.counter w + 1) = 0).
    { rewrite Hc, Epre, length_app. cbn [List.length]. rewrite Hrest.
      unfold int8. lia. }
    rewrite (mouth_step_flush w s Hw E). cbn [fst snd Mouth.lo Mouth.hi].
    assert (Hf : Forall is_int8 front).
    { rewrite Epre in Hpre. apply Forall_app in Hpre. tauto. }
    destruct (mouth_run_inv front Mouth.init mouth_init_inv Hf) as [Hwf _].
    assert (Ef : int8 (Mouth.counter (fst (Mouth.run front Mouth.init)) + 1) = 0).
    { rewrite mouth_run_counter by (unfold is_int8; cbn; lia).
      unfold int8, Mouth.init; cbn [Mouth.counter]. lia. }
    assert (Ew : w = fst (Mouth.run rest
                  {| Mouth.lo := s0; Mouth.hi := s0; Mouth.counter := 0 |})).
    { subst w. rewrite Epre, mouth_run_app. cbn [fst].
      rewrite mouth_run_cons. cbn [fst].
      now rewrite (mouth_step_flush _ s0 Hwf Ef). }
    destruct (mouth_run_quiet rest
                {| Mouth.lo := s0; Mouth.hi := s0; Mouth.counter := 0 |})
      as (_ & Hmin & Hmax); [cbn; lia | cbn; lia |].
    rewrite <- Ew in Hmin, Hmax. cbn in Hmin, Hmax.
    unfold Mouth.minimum, Mouth.maximum. auto.
Qed.

(** C9: throughout the sample loop [lo <= hi] holds at every iteration
    (after any number [n] of the samples), so [(hi - lo) * 4] is never
    negative, and every brightness written to the mouth LED lies in
    [0, 255], although the code only clamps from above. *)
Theorem mouth_range_invariant (samples : list Z) (n : nat) :
  Forall is_int8 samples ->
  let w := fst (Mouth.run (firstn n samples) Mouth.init) in
  Mouth.lo w <= Mouth.hi w /\
  0 <= int16 ((Mouth.hi w - Mouth.lo w) * 4) /\
  int16 ((Mouth.hi w - Mouth.lo w) * 4) = (Mouth.hi w - Mouth.lo w) * 4 /\
  Forall (fun b => 0 <= b <= 255) (snd (Mouth.run samples Mouth.init)).
Proof.
  intros Hs w.
  assert (Hpre : Forall is_int8 (firstn n samples)).
  { rewrite <- (firstn_skipn n samples) in Hs. apply Forall_app in Hs. tauto. }
  destruct (mouth_run_inv _ Mouth.init mouth_init_inv Hpre) as [Hw _].
  destruct (mouth_run_inv _ Mouth.init mouth_init_inv Hs) as [_ Hb].
  fold w in Hw. destruct Hw as (Hlo & Hhi & _ & Hle). unfold is_int8 in *.
  rewrite int16_small by lia. repeat split; try lia. exact Hb.
Qed.

Lemma mouth_range_invariant_witness :
  let samples := [100; -128; 127; 0] ++ repeat (-128) 252 ++ [127; 5] in
  let w := fst (Mouth.run (firstn 3 samples) Mouth.init) in
  Mouth.lo w <= Mouth.hi w /\
  0 <= int16 ((Mouth.hi w - Mouth.lo w) * 4) /\
  int16 ((Mouth.hi w - Mouth.lo w) * 4) = (Mouth.hi w - Mouth.lo w) * 4 /\
  Forall (fun b => 0 <= b <= 255) (snd (Mouth.run samples Mouth.init)).
Proof.
  intros samples. apply (mouth_range_invariant samples 3).
  subst samples. apply Forall_app. split; [repeat constructor; unfold is_int8; lia|].
  apply Forall_app. split; [|repeat constructor; unfold is_int8; lia].
  apply Forall_forall. intros x Hx. apply repeat_spec in Hx. subst x.
  unfold is_int8. lia.
Defined.

(** ** Eye blink *)

Lemma eyes_random_range (r howbig : Z) :
  0 <= r -> 0 < howbig -> 0 <= Eyes.random r howbig < howbig.
Proof.
  intros Hr Hb. unfold Eyes.random.
  destruct (Z.eqb_spec howbig 0); [lia|]. apply Z.rem_bound_pos; lia.
Qed.

(** On a tick that does not bring the counter to zero, nothing but the
    counter changes. *)
Lemma eyes_tick_idle (r : Z) (st : Eyes.blink) :
  uint8 (Eyes.counter st - 1) <> 0 ->
  Eyes.TIMER2_OVF_vect r st =
    {| Eyes.counter := uint8 (Eyes.counter st - 1);
       Eyes.blinking := Eyes.blinking st; Eyes.pin9 := Eyes.pin9 st |}.
Proof.
  intros E. unfold Eyes.TIMER2_OVF_vect. apply Z.eqb_neq in E. now rewrite E.
Qed.

(** On a tick that brings the counter to zero, the parity of the
    incremented [blinking] selects the new level and dwell. *)
Lemma eyes_tick_zero (r : Z) (st : Eyes.blink) :
  0 <= r -> uint8 (Eyes.counter st - 1) = 0 ->
  let st' := Eyes.TIMER2_OVF_vect r st in
  Eyes.blinking st' = uint8 (Eyes.blinking st + 1) /\
  (Eyes.blinking st' mod 2 = 1 /\ Eyes.pin9 st' = Eyes.LOW /\
   Eyes.counter st' = 5 + Eyes.random r 11 /\ 5 <= Eyes.counter st' <= 15
   \/
   Eyes.blinking st' mod 2 = 0 /\ Eyes.pin9 st' = Eyes.HIGH /\
   Eyes.counter st' = 8 + Eyes.random r 120 /\ 8 <= Eyes.counter st' <= 127).
Proof.
  intros Hr E st'. subst st'. unfold Eyes.TIMER2_OVF_vect. rewrite E. cbn [Z.eqb].
  pose proof (eyes_random_range r 11 Hr ltac:(lia)) as H11.
  pose proof (eyes_random_range r 120 Hr ltac:(lia)) as H120.
  assert (Hbit : Z.land (uint8 (Eyes.blinking st + 1)) 1
                 = uint8 (Eyes.blinking st + 1) mod 2)
    by (change 1 with (Z.ones 1); rewrite Z.land_ones by lia; reflexivity).
  rewrite Hbit.
  destruct (Z.eqb_spec (uint8 (Eyes.blinking st + 1) mod 2) 0) as [Ep | Ep];
    cbn [negb Eyes.counter Eyes.blinking Eyes.pin9];
    (split; [reflexivity|]); [right | left].
  - rewrite (uint8_small (8 + Eyes.random r 120)) by lia. repeat split; lia.
  - rewrite (uint8_small (5 + Eyes.random r 11)) by lia. repeat split; lia.
Qed.

(** Reachable states: the counter is a positive number of remaining ticks,
    and past the initial state the LED level follows the parity of
    [blinking] (odd: blink, LED off). *)
Lemma eyes_reachable_inv (st : Eyes.blink) :
  Eyes.reachable st ->
  1 <= Eyes.counter st <= 127 /\ 0 <= Eyes.blinking st <= 255 /\
  (st = Eyes.init \/
   Eyes.pin9 st = if Eyes.blinking st mod 2 =? 1 then Eyes.LOW else Eyes.HIGH).
Proof.
  induction 1 as [|r st [Hr _] _ (Hc & Hb & Hp)].
  - cbn. split; [lia|]. split; [lia|]. now left.
  - destruct (Z.eq_dec (uint8 (Eyes.counter st - 1)) 0) as [E | E].
    + destruct (eyes_tick_zero r st Hr E) as (Eb & [(Ep & El & _ & Hd) | (Ep & El & _ & Hd)]);
        (split; [lia|]); (split; [rewrite Eb; unfold uint8; lia|]);
        right; rewrite El, Ep; reflexivity.
    + rewrite (eyes_tick_idle r st E). cbn [Eyes.counter Eyes.blinking Eyes.pin9].
      split; [unfold uint8 in *; lia|]. split; [lia|].
      destruct Hp as [-> | Hp]; [exfalso; apply E; reflexivity | now right].
Qed.

(** C8: in every reachable state and for every value [random()] can
    return, the eye LED level (and the phase counter [blinking]) changes
    only on a tick where the remaining-ticks counter reaches zero; on such
    a tick the fresh dwell is 5..15 ticks when the eyes close (LED off) and
    8..127 ticks when they open; on any other tick the counter just
    decreases by one. *)
Theorem eye_blink_dwell (st : Eyes.blink) (r : Z) :
  Eyes.reachable st -> 0 <= r <= Eyes.RANDOM_MAX ->
  let st' := Eyes.TIMER2_OVF_vect r st in
  (Eyes.pin9 st' <> Eyes.pin9 st \/ Eyes.blinking st' <> Eyes.blinking st ->
   Eyes.counter st - 1 = 0) /\
  (Eyes.counter st - 1 <> 0 ->
   Eyes.counter st' = Eyes.counter st - 1 /\ Eyes.pin9 st' = Eyes.pin9 st) /\
  (Eyes.counter st - 1 = 0 ->
   (Eyes.pin9 st' = Eyes.LOW -> 5 <= Eyes.counter st' <= 15) /\
   (Eyes.pin9 st' = Eyes.HIGH -> 8 <= Eyes.counter st' <= 127) /\
   (st <> Eyes.init -> Eyes.pin9 st' <> Eyes.pin9 st)).
Proof.
  intros Hreach [Hr _] st'.
  destruct (eyes_reachable_inv st Hreach) as (Hc & Hb & Hp).
  assert (Eu : uint8 (Eyes.counter st - 1) = Eyes.counter st - 1)
    by (apply uint8_small; lia).
  assert (Hidle : Eyes.counter st - 1 <> 0 ->
                  Eyes.counter st' = Eyes.counter st - 1 /\
                  Eyes.pin9 st' = Eyes.pin9 st /\
                  Eyes.blinking st' = Eyes.blinking st).
  { intros E. subst st'. rewrite eyes_tick_idle by lia. cbn. auto. }
  split; [|split].
  - intros Hchg. destruct (Z.eq_dec (Eyes.counter st - 1) 0) as [E | E]; [exact E|].
    destruct (Hidle E) as (_ & Ep & Eb). destruct Hchg; contradiction.
  - intros E. destruct (Hidle E) as (Ec & Ep & _). now split.
  - intros E. rewrite <- Eu in E.
    destruct (eyes_tick_zero r st Hr E) as (Eb & [(Ep & El & _ & Hd) | (Ep & El & _ & Hd)]);
      fold st' in Eb, Ep, El, Hd; rewrite El;
      (split; [intros; (lia || discriminate)|]);
      (split; [intros; (lia || discriminate)|]);
      intros Hinit; destruct Hp as [-> | Hp]; try contradiction;
      rewrite Hp; rewrite Eb in Ep; unfold uint8 in Ep.
    + replace (Eyes.blinking st mod 2 =? 1) with false
        by (symmetry; apply Z.eqb_neq; lia). discriminate.
    + replace (Eyes.blinking st mod 2 =? 1) with true
        by (symmetry; apply Z.eqb_eq; lia). discriminate.
Qed.

Lemma eye_blink_dwell_witness :
  let st := Eyes.TIMER2_OVF_vect 7 Eyes.init in
  let st' := Eyes.TIMER2_OVF_vect 2147483647 st in
  (Eyes.counter st - 1 <> 0 /\
   Eyes.counter st' = Eyes.counter st - 1 /\ Eyes.pin9 st' = Eyes.pin9 st) /\
  (Eyes.counter Eyes.init - 1 = 0 /\ Eyes.pin9 st = Eyes.HIGH /\
   8 <= Eyes.counter st <= 127).
Proof.
  intros st st'. split.
  - split; [cbn; lia|].
    apply (eye_blink_dwell st 2147483647).
    + apply (Eyes.reach_tick 7 Eyes.init); [unfold Eyes.RANDOM_MAX; lia|].
      apply Eyes.reach_init.
    + unfold Eyes.RANDOM_MAX. lia.
    + cbn. lia.
  - split; [reflexivity|]. split; [reflexivity|].
    apply (eye_blink_dwell Eyes.init 7);
      [apply Eyes.reach_init | unfold Eyes.RANDOM_MAX; lia
      | reflexivity | reflexivity].
Defined.

(** ** Debounce filter *)

(** The deadline test of [loop], for a deadline [d] and the time [t] on an
    unbounded millisecond clock whose low 32 bits [millis()] returns: it
    succeeds from the deadline on, for 2^31 ms. *)
Lemma deadline_met (d t : Z) :
  0 <= d < 4294967296 -> d <= t < d + 2147483648 ->
  (0 <=? int32 (uint32 (uint32 t - d))) = true.
Proof. intros Hd Ht. apply Z.leb_le. unfold int32, uint32. lia. Qed.

Lemma deadline_pending (d t : Z) :
  0 <= d < 4294967296 -> d - 2147483648 <= t < d ->
  (0 <=? int32 (uint32 (uint32 t - d))) = false.
Proof. intros Hd Ht. apply Z.leb_gt. unfold int32, uint32. lia. Qed.

(** Polls of a button held from the deadline on all report an edge; a
    pressed poll before the deadline and a released poll report none. *)
Lemma polls_held (d : Z) (ts : list Z) :
  0 <= d < 4294967296 ->
  Forall (fun t => d <= t < d + 2147483648) ts ->
  polls (map (fun t => (true, uint32 t)) ts) d = (map (fun _ => true) ts, d) /\
  edges (map (fun _ : Z => true) ts) = List.length ts /\
  (forall t, d - 2147483648 <= t < d -> poll true (uint32 t) d = (false, d)) /\
  (forall now, poll false now d = (false, uint32 (now + 15))).
Proof.
  intros Hd Hts. split; [|split; [|split]].
  - induction Hts as [|t ts Ht _ IH]; [reflexivity|].
    cbn [map polls]. unfold poll at 1. rewrite (deadline_met d t Hd Ht), IH.
    reflexivity.
  - unfold edges. clear Hts. induction ts as [|t ts IH]; [reflexivity|].
    cbn. now rewrite IH.
  - intros t Ht. unfold poll. now rewrite (deadline_pending d t Hd Ht).
  - reflexivity.
Qed.

(** ** The filename buffer *)

Lemma length_chars (s : string) :
  List.length (list_ascii_of_string s) = String.length s.
Proof. induction s as [|c s IH]; cbn; congruence. Qed.

Lemma c_str_name (name : string) (rest : list ascii) :
  strlen_P name = String.length name ->
  c_str (list_ascii_of_string name ++ rest) =
    option_map (String.append name) (c_str rest).
Proof.
  induction name as [|c name IH]; cbn [strlen_P String.length]; intros Hlen.
  - cbn. now destruct (c_str rest).
  - destruct (Ascii.eqb c NUL) eqn:Ec; [discriminate|].
    cbn [list_ascii_of_string app c_str]. rewrite Ec, IH by congruence.
    now destruct (c_str rest).
Qed.

Lemma filename_init_ok : filename_ok filename_init.
Proof. split; reflexivity. Qed.

Lemma clip_names_short : Forall short_name clip_names.
Proof. unfold clip_names. repeat constructor; cbn; lia. Qed.

(** Prepending a short name in front of the extension: the pointer
    [&filename[8 - len]] then designates exactly [name.WAV], and the tail
    of the buffer is as before. *)
Lemma filename_prepend (buf : list ascii) (name : string) :
  filename_ok buf -> short_name name ->
  let off := (8 - strlen_P name)%nat in
  let buf' := memcpy_P buf off name (strlen_P name) in
  c_str (skipn off buf') = Some (name ++ ".WAV")%string /\ filename_ok buf'.
Proof.
  intros [Hlen Hext] [Hnul Hshort] off buf'. subst off buf'. rewrite Hnul.
  unfold memcpy_P.
  replace (8 - String.length name + String.length name)%nat with 8%nat by lia.
  rewrite (firstn_all2 (list_ascii_of_string name)) by (rewrite length_chars; lia).
  assert (Hfront : List.length (firstn (8 - String.length name) buf)
                   = (8 - String.length name)%nat)
    by (rewrite length_firstn; lia).
  split.
  - rewrite skipn_app, Hfront, Nat.sub_diag, skipn_all2 by lia.
    rewrite skipn_O. cbn [app]. rewrite c_str_name by exact Hnul.
    rewrite Hext. reflexivity.
  - split.
    + rewrite !length_app, Hfront, length_chars, length_skipn. lia.
    + rewrite app_assoc, skipn_app, length_app, Hfront, length_chars.
      replace (8 - String.length name + String.length name)%nat with 8%nat by lia.
      rewrite skipn_all2 by (rewrite length_app, Hfront, length_chars; lia).
      rewrite Nat.sub_diag, skipn_O. cbn [app]. exact Hext.
Qed.

(** ** The sketch: [playfile] and [loop] *)

Section SketchFacts.

Context {W : WaveShield}.

Lemma opened_app (tr1 tr2 : list event) :
  opened (tr1 ++ tr2) = opened tr1 ++ opened tr2.
Proof.
  induction tr1 as [|e tr1 IH]; [reflexivity|].
  destruct e; cbn; rewrite IH; reflexivity.
Qed.

Lemma opened_writes (bs : list Z) : opened (map EvAnalogWrite bs) = [].
Proof. induction bs; cbn; auto. Qed.

Lemma written_app (tr1 tr2 : list event) :
  written (tr1 ++ tr2) = written tr1 ++ written tr2.
Proof.
  induction tr1 as [|e tr1 IH]; [reflexivity|].
  destruct e; cbn; rewrite IH; reflexivity.
Qed.

Lemma written_writes (bs : list Z) : written (map EvAnalogWrite bs) = bs.
Proof. induction bs; cbn; congruence. Qed.

(** The sample loop leaves the mouth pin at the last brightness written
    (untouched if nothing was written) and does nothing else than the
    writes that [Mouth.run] lists. *)
Lemma mouth_loop_spec (samples : list Z) (w : Mouth.window) (st : sketch) :
  mouth_loop samples w st =
    Some (tt, {| LEDMOUTH := after_writes (LEDMOUTH st) (snd (Mouth.run samples w));
                 filename := filename st;
                 debounceTime := debounceTime st;
                 trace := trace st ++ map EvAnalogWrite (snd (Mouth.run samples w));
                 world := world st |}).
Proof.
  revert w st. induction samples as [|s rest IH]; intros w st.
  - cbn. rewrite app_nil_r. now destruct st.
  - rewrite mouth_run_cons. cbn [mouth_loop snd].
    destruct (Mouth.step w s) as [w' [b|]]; cbn [fst snd];
      unfold bind, analogWrite_LEDMOUTH, ret; rewrite IH;
      cbn [LEDMOUTH filename debounceTime trace world map after_writes fold_left].
    + rewrite <- app_assoc. reflexivity.
    + reflexivity.
Qed.

Lemma fullName_offset (name : string) :
  short_name name ->
  (8 - Z.of_nat (strlen_P name) <? 0) = false /\
  Z.to_nat (8 - Z.of_nat (strlen_P name)) = (8 - strlen_P name)%nat.
Proof. intros [-> Hshort]. split; [apply Z.ltb_ge|]; lia. Qed.

(** What one call of [playfile] does, for a name that fits the buffer: the
    file opened is [name.WAV]; the three ways out. *)
Lemma playfile_unfold (name : string) (st : sketch) :
  filename_ok (filename st) -> short_name name ->
  let fn := (name ++ ".WAV")%string in
  let buf := memcpy_P (filename st) (8 - strlen_P name) name (strlen_P name) in
  let result mouth tr w :=
    Some (tt, {| LEDMOUTH := mouth; filename := buf;
                 debounceTime := debounceTime st;
                 trace := trace st ++ EvOpen fn :: tr; world := w |}) in
  playfile name st =
    let (opened, w1) := file_open fn (world st) in
    if opened : bool then
      let (created, w2) := wave_create w1 in
      if created : bool then
        let (samples, w3) := wave_play w2 in
        let bs := snd (Mouth.run samples Mouth.init) in
        result (after_writes (LEDMOUTH st) bs)
               (EvCreate :: EvPlay :: map EvAnalogWrite bs) w3
      else
        result (LEDMOUTH st)
               [EvCreate; EvSerial fn; EvSerial (": Not a valid WAV" ++ CRLF)] w2
    else
      result (LEDMOUTH st) [EvSerial "Couldn't open file: "; EvSerial fn] w1.
Proof.
  intros Hbuf Hname fn buf result.
  destruct (fullName_offset name Hname) as [Eneg Eoff].
  destruct (filename_prepend (filename st) name Hbuf Hname) as [Estr _].
  fold buf in Estr. subst result.
  unfold playfile, memcpy_P_filename, file_open_root, wave_create_file,
    Serial_print_at, Serial_println, Serial_print, fullName_at, emit, with_world,
    bind.
  rewrite Eneg, Eoff.
  cbn [LEDMOUTH filename debounceTime trace world]. fold buf. rewrite Estr.
  cbn [LEDMOUTH filename debounceTime trace world]. fold fn.
  destruct (file_open fn (world st)) as [[|] w1];
    cbn [LEDMOUTH filename debounceTime trace world].
  - destruct (wave_create w1) as [[|] w2];
      cbn [LEDMOUTH filename debounceTime trace world].
    + destruct (wave_play w2) as [samples w3]. rewrite mouth_loop_spec.
      cbn [LEDMOUTH filename debounceTime trace world].
      rewrite <- !app_assoc. reflexivity.
    + rewrite Estr. cbn [LEDMOUTH filename debounceTime trace world].
      rewrite <- !app_assoc. reflexivity.
  - rewrite Estr. cbn [LEDMOUTH filename debounceTime trace world].
    rewrite <- !app_assoc. reflexivity.
Qed.

(** Summary of one call: it returns, the one file it tries to open is
    [name.WAV], the buffer stays well-formed. *)
Lemma playfile_spec (name : string) (st : sketch) :
  filename_ok (filename st) -> short_name name ->
  exists st' tr,
    playfile name st = Some (tt, st') /\
    trace st' = trace st ++ EvOpen (name ++ ".WAV")%string :: tr /\
    opened tr = [] /\
    LEDMOUTH st' = after_writes (LEDMOUTH st) (written tr) /\
    filename_ok (filename st') /\
    debounceTime st' = debounceTime st.
Proof.
  intros Hbuf Hname. rewrite (playfile_unfold name st Hbuf Hname).
  destruct (filename_prepend (filename st) name Hbuf Hname) as [_ Hbuf'].
  destruct (file_open _ (world st)) as [[|] w1];
    [destruct (wave_create w1) as [[|] w2];
     [destruct (wave_play w2) as [samples w3]|]|];
    eexists; eexists; (split; [reflexivity|]);
    cbn [LEDMOUTH filename debounceTime trace world];
    (split; [reflexivity|]); cbn [opened written];
    rewrite ?opened_writes, ?written_writes; auto.
Qed.

Lemma play_all_spec (names : list string) (st : sketch) :
  Forall short_name names -> filename_ok (filename st) ->
  exists st',
    play_all (map (fun n => Some (Str n)) names) st = Some (tt, st') /\
    opened (trace st') =
      opened (trace st) ++ map (fun n => (n ++ ".WAV")%string) names /\
    filename_ok (filename st') /\
    debounceTime st' = debounceTime st.
Proof.
  intros Hnames. revert st.
  induction Hnames as [|name names Hname _ IH]; intros st Hbuf.
  - exists st. cbn. rewrite app_nil_r. auto.
  - destruct (playfile_spec name st Hbuf Hname)
      as (st1 & tr & Eplay & Etr & Eop & _ & Hbuf1 & Ed1).
    destruct (IH st1 Hbuf1) as (st2 & Eall & Eop2 & Hbuf2 & Ed2).
    exists st2. cbn [map play_all play_arg]. unfold bind. rewrite Eplay, Eall.
    split; [reflexivity|]. split; [|split; [assumption | congruence]].
    rewrite Eop2, Etr, opened_app. cbn [opened map]. rewrite Eop.
    rewrite <- app_assoc. reflexivity.
Qed.

Lemma clips_names (args : list (option cptr)) :
  Forall is_clip args ->
  exists names,
    args = map (fun n => Some (Str n)) names /\
    Forall (fun n => In n clip_names) names.
Proof.
  induction 1 as [|a args (name & -> & Hin) _ (names & -> & Hall)].
  - exists []. split; [reflexivity | constructor].
  - exists (name :: names). split; [reflexivity | now constructor].
Qed.

Lemma clip_name_short (name : string) : In name clip_names -> short_name name.
Proof.
  intros Hin. pose proof clip_names_short as H.
  rewrite Forall_forall in H. now apply H.
Qed.

(** The announcement returns, tries every clip of the phrase in order,
    whatever the card answers, and leaves the mouth pin an input. *)
Lemma announce_spec (h m : Z) (st : sketch) :
  0 <= h < 24 -> 0 <= m < 60 -> filename_ok (filename st) ->
  exists st' names,
    phrase h m = map (fun n => Some (Str n)) names /\
    announce h m st = Some (tt, st') /\
    LEDMOUTH st' = INPUT /\
    opened (trace st') =
      opened (trace st) ++ map (fun n => (n ++ ".WAV")%string) names /\
    filename_ok (filename st') /\
    debounceTime st' = debounceTime st.
Proof.
  intros Hh Hm Hbuf.
  assert (Hclips : Forall is_clip (phrase h m)).
  { unfold phrase. constructor.
    - exists annc. split; [reflexivity | unfold clip_names; cbn; tauto].
    - apply Forall_map. eapply Forall_impl; [|apply (lookups_ok h m Hh Hm)].
      intros l (_ & _ & name & Hr & Hin). exists name. now split. }
  destruct (clips_names _ Hclips) as (names & Enames & Hin).
  assert (Hshort : Forall short_name names).
  { eapply Forall_impl; [|exact Hin]. exact clip_name_short. }
  destruct (play_all_spec names st Hshort Hbuf) as (st1 & Eall & Eop & Hbuf1 & Ed).
  eexists; exists names. split; [exact Enames|].
  unfold announce, bind. rewrite Enames, Eall. unfold pinMode_LEDMOUTH_INPUT.
  split; [reflexivity|]. cbn [LEDMOUTH filename debounceTime trace world].
  rewrite opened_app, Eop. cbn [opened]. rewrite app_nil_r. auto.
Qed.

(** [loop] is the debounce poll followed, on an edge, by the announcement
    of the phrase. *)
Lemma loop_poll (pressed : bool) (now h m : Z) (st : sketch) :
  loop pressed now h m st =
    if fst (poll pressed now (debounceTime st)) then announce h m st
    else set_debounceTime (snd (poll pressed now (debounceTime st))) st.
Proof.
  unfold loop, poll. destruct pressed; [|reflexivity].
  unfold bind at 1, get_debounceTime.
  destruct (0 <=? int32 (uint32 (now - debounceTime st))); cbn [fst snd];
    [|unfold ret, set_debounceTime; now destruct st].
  unfold announce, phrase, lookups, minute_lookups.
  destruct (12 <=? h);
    (destruct (uint8 (m mod 10) =? 0); [|destruct (uint8 (m / 10) =? 1)]);
    cbn [app map play_all play_arg]; unfold play_P, read, bind, ret;
    cbn [fst snd];
    repeat match goal with
      | |- context [match playfile ?n ?s with _ => _ end] =>
          destruct (playfile n s) as [[[] ?]|]; cbv beta iota
      | |- context [match play_arg ?a ?s with _ => _ end] =>
          destruct (play_arg a s) as [[[] ?]|]; cbv beta iota
      end;
    reflexivity.
Qed.

(** C10: for the clip identifiers of the sketch's tables (each of 1 to 8
    characters), the name handed to [file.open] is exactly the identifier
    followed by ".WAV", on every call, whatever identifiers the earlier
    calls put into the one static buffer. *)
Theorem filename_exact (earlier names : list string) (w : World) :
  Forall (fun n => In n clip_names) earlier ->
  Forall (fun n => In n clip_names) names ->
  exists st1 st2,
    play_all (map (fun n => Some (Str n)) earlier) (power_on w) = Some (tt, st1) /\
    play_all (map (fun n => Some (Str n)) names) st1 = Some (tt, st2) /\
    opened (trace st2) =
      opened (trace st1) ++ map (fun n => (n ++ ".WAV")%string) names /\
    Forall (fun n => (1 <= String.length n <= 8)%nat) clip_names.
Proof.
  intros Hearlier Hnames.
  assert (Hshort : forall l, Forall (fun n => In n clip_names) l ->
                             Forall short_name l).
  { intros l Hl. eapply Forall_impl; [|exact Hl]. exact clip_name_short. }
  destruct (play_all_spec earlier (power_on w) (Hshort _ Hearlier) filename_init_ok)
    as (st1 & E1 & _ & Hbuf1 & _).
  destruct (play_all_spec names st1 (Hshort _ Hnames) Hbuf1)
    as (st2 & E2 & Eop & _ & _).
  exists st1, st2. repeat split; try assumption.
  unfold clip_names. repeat constructor.
Qed.

(** C7: a clip that cannot be opened, or whose header is not a valid WAV,
    makes [playfile] print the failure on the serial line and return
    without playing (no playback started, mouth pin untouched); and one
    pass of [loop] that starts the announcement tries to open every clip
    of the phrase, in order, whatever the card answers for any of them. *)
Theorem clip_failure_recoverable (h m now : Z) (st : sketch) :
  0 <= h < 24 -> 0 <= m < 60 -> filename_ok (filename st) ->
  fst (poll true now (debounceTime st)) = true ->
  (exists st' names,
      phrase h m = map (fun n => Some (Str n)) names /\
      loop true now h m st = Some (tt, st') /\
      opened (trace st') =
        opened (trace st) ++ map (fun n => (n ++ ".WAV")%string) names) /\
  (forall name w1,
      short_name name ->
      file_open (name ++ ".WAV")%string (world st) = (false, w1) ->
      playfile name st =
        Some (tt, {| LEDMOUTH := LEDMOUTH st;
                     filename := memcpy_P (filename st) (8 - strlen_P name)
                                          name (strlen_P name);
                     debounceTime := debounceTime st;
                     trace := trace st ++
                              [EvOpen (name ++ ".WAV")%string;
                               EvSerial "Couldn't open file: ";
                               EvSerial (name ++ ".WAV")%string];
                     world := w1 |})) /\
  (forall name w1 w2,
      short_name name ->
      file_open (name ++ ".WAV")%string (world st) = (true, w1) ->
      wave_create w1 = (false, w2) ->
      playfile name st =
        Some (tt, {| LEDMOUTH := LEDMOUTH st;
                     filename := memcpy_P (filename st) (8 - strlen_P name)
                                          name (strlen_P name);
                     debounceTime := debounceTime st;
                     trace := trace st ++
                              [EvOpen (name ++ ".WAV")%string;
                               EvCreate;
                               EvSerial (name ++ ".WAV")%string;
                               EvSerial (": Not a valid WAV" ++ CRLF)%string];
                     world := w2 |})).
Proof.
  intros Hh Hm Hbuf Hedge. split; [|split].
  - destruct (announce_spec h m st Hh Hm Hbuf)
      as (st' & names & Enames & Eann & _ & Eop & _ & _).
    exists st', names. rewrite loop_poll, Hedge. auto.
  - intros name w1 Hname Eopen.
    rewrite (playfile_unfold name st Hbuf Hname), Eopen. reflexivity.
  - intros name w1 w2 Hname Eopen Ecreate.
    rewrite (playfile_unfold name st Hbuf Hname), Eopen, Ecreate. reflexivity.
Qed.

End SketchFacts.

(** ** The properties on the example card *)

Lemma filename_exact_witness :
  exists st1 st2,
    play_all (W:=example_shield)
      (map (fun n => Some (Str n)) [annc; h11; m4x]) example_start
    = Some (tt, st1) /\
    play_all (map (fun n => Some (Str n)) [m5; pm]) st1 = Some (tt, st2) /\
    opened (trace st2) =
      opened (trace st1) ++ map (fun n => (n ++ ".WAV")%string) [m5; pm] /\
    Forall (fun n => (1 <= String.length n <= 8)%nat) clip_names.
Proof.
  apply (filename_exact (W:=example_shield) [annc; h11; m4x] [m5; pm] (false, []));
    repeat (constructor; [unfold clip_names; cbn; tauto|]); constructor.
Defined.

Lemma clip_failure_recoverable_witness :
  let st := example_start in
  (exists st' names,
      phrase 23 45 = map (fun n => Some (Str n)) names /\
      loop true 20 23 45 st = Some (tt, st') /\
      opened (trace st') =
        opened (trace st) ++ map (fun n => (n ++ ".WAV")%string) names) /\
  option_map (fun r => (LEDMOUTH (snd r), trace (snd r))) (playfile m5 st)
  = Some (INPUT, [EvOpen "m5.WAV"; EvSerial "Couldn't open file: ";
                  EvSerial "m5.WAV"]) /\
  option_map (fun r => (LEDMOUTH (snd r), trace (snd r))) (playfile pm st)
  = Some (INPUT, [EvOpen "pm.WAV"; EvCreate; EvSerial "pm.WAV";
                  EvSerial (": Not a valid WAV" ++ CRLF)%string]).
Proof.
  intros st.
  destruct (clip_failure_recoverable (W:=example_shield) 23 45 20 st)
    as (Hall & Hopen & Hheader);
    [lia | lia | split; reflexivity | reflexivity |].
  split; [exact Hall|]. split.
  - rewrite (Hopen m5 (false, [])); [reflexivity | split; cbn; lia | reflexivity].
  - rewrite (Hheader pm (false, []) (false, []));
      [reflexivity | split; cbn; lia | reflexivity | reflexivity].
Defined.

(** C5 as stated fails: on the example card, the play call for the
    announcement clip returns with the mouth pin still driven at
    brightness 76, and the following play call, whose file is missing,
    returns with the pin still at that brightness. *)
Lemma mouth_off_counterexample :
  let st := example_start in
  option_map (fun r => LEDMOUTH (snd r)) (playfile annc st) = Some (PWM 76) /\
  option_map (fun r => (LEDMOUTH (snd r), opened (trace (snd r))))
             ((playfile annc ;; playfile m5) st)
  = Some (PWM 76, ["annc.WAV"; "m5.WAV"]) /\
  PWM 76 <> INPUT.
Proof. cbv zeta. repeat split. discriminate. Qed.

(** * Further properties *)

(** ** The phrase as a function of the clock reading *)

Lemma in_upto (n : nat) (x : Z) : 0 <= x < Z.of_nat n -> In x (upto n).
Proof.
  intros Hx. unfold upto. apply in_map_iff. exists (Z.to_nat x).
  split; [lia | apply in_seq; lia].
Qed.

Lemma upto_range (n : nat) (x : Z) : In x (upto n) -> 0 <= x < Z.of_nat n.
Proof.
  unfold upto. intros Hin. apply in_map_iff in Hin.
  destruct Hin as (k & <- & Hk). apply in_seq in Hk. lia.
Qed.

Lemma pgm_read_word_outside (tbl : list cptr) (i : Z) :
  i < 0 \/ Z.of_nat (List.length tbl) <= i -> pgm_read_word tbl i = None.
Proof.
  intros Hi. unfold pgm_read_word. destruct (Z.ltb_spec i 0); [reflexivity|].
  apply nth_error_None. lia.
Qed.

(** The phrase in closed form: the hour clip is [hours[h mod 12]] and the
    period clip [ampm[h / 12]]. *)
Lemma phrase_closed (h m : Z) :
  0 <= h < 24 ->
  phrase h m =
    Some (Str annc) :: pgm_read_word hours (h mod 12)
      :: minute_phrase m ++ [pgm_read_word ampm (h / 12)].
Proof.
  intros Hh. unfold phrase, lookups, minute_phrase.
  destruct (Z.leb_spec 12 h).
  - replace (uint8 (h - 12)) with (h mod 12) by (unfold uint8; lia).
    replace (h / 12) with 1 by lia.
    cbn [app map]. rewrite map_app. reflexivity.
  - replace (h mod 12) with h by lia. replace (h / 12) with 0 by lia.
    cbn [app map]. rewrite map_app. reflexivity.
Qed.

Lemma hours_inj (i j : Z) :
  0 <= i < 12 -> 0 <= j < 12 ->
  pgm_read_word hours i = pgm_read_word hours j -> i = j.
Proof.
  intros Hi Hj E. enum_index i; enum_index j;
    first [reflexivity | vm_compute in E; congruence].
Qed.

Lemma ampm_inj (i j : Z) :
  0 <= i < 2 -> 0 <= j < 2 ->
  pgm_read_word ampm i = pgm_read_word ampm j -> i = j.
Proof.
  intros Hi Hj E. enum_index i; enum_index j;
    first [reflexivity | vm_compute in E; congruence].
Qed.

Lemma cptr_eqb_refl (a : cptr) : cptr_eqb a a = true.
Proof. destruct a; cbn; [apply String.eqb_refl | reflexivity]. Qed.

Lemma args_eqb_refl (p : list (option cptr)) : args_eqb p p = true.
Proof.
  induction p as [|[a|] p IH]; cbn; [reflexivity | | exact IH].
  now rewrite cptr_eqb_refl.
Qed.

Lemma arg_eqb_eq (a b : option cptr) : arg_eqb a b = true -> a = b.
Proof.
  destruct a as [[s|]|], b as [[t|]|]; cbn; try discriminate; try reflexivity.
  intros E. apply String.eqb_eq in E. now subst.
Qed.

Lemma minute_phrase_inj (m m' : Z) :
  0 <= m < 60 -> 0 <= m' < 60 ->
  minute_phrase m = minute_phrase m' -> m = m'.
Proof.
  intros Hm Hm' E.
  assert (Hall : minute_phrases_differ = true) by (vm_compute; reflexivity).
  unfold minute_phrases_differ in Hall. rewrite forallb_forall in Hall.
  specialize (Hall m (in_upto 60 m Hm)). rewrite forallb_forall in Hall.
  specialize (Hall m' (in_upto 60 m' Hm')).
  rewrite E, args_eqb_refl in Hall. cbn in Hall. rewrite orb_false_r in Hall.
  now apply Z.eqb_eq.
Qed.

(** The phrases of the hours [h] and [h + 12] differ in the period only. *)
Lemma phrase_same_hour (h m : Z) :
  0 <= h < 12 ->
  exists hour,
    pgm_read_word hours h = Some (Str hour) /\
    phrase h m =
      Some (Str annc) :: Some (Str hour) :: minute_phrase m ++ [Some (Str am)] /\
    phrase (h + 12) m =
      Some (Str annc) :: Some (Str hour) :: minute_phrase m ++ [Some (Str pm)] /\
    (h = 0 -> hour = h12).
Proof.
  intros Hh.
  destruct (read_in_table Hours h) as (_ & _ & hour & Hr & _);
    [cbn; lia | congruence |].
  unfold read in Hr; cbn [fst snd table_data] in Hr.
  exists hour. split; [exact Hr|].
  rewrite !phrase_closed by lia.
  replace ((h + 12) mod 12) with h by lia. replace (h mod 12) with h by lia.
  replace ((h + 12) / 12) with 1 by lia. replace (h / 12) with 0 by lia.
  rewrite Hr. repeat split.
  intros ->. cbn in Hr. congruence.
Qed.

(** Different clock readings have different phrases. *)
Lemma phrase_inj (h m h' m' : Z) :
  0 <= h < 24 -> 0 <= m < 60 -> 0 <= h' < 24 -> 0 <= m' < 60 ->
  (h, m) <> (h', m') -> phrase h m <> phrase h' m'.
Proof.
  intros Hh Hm Hh' Hm' Hne E. apply Hne.
  rewrite !phrase_closed in E by assumption.
  injection E as Ehour Etail. apply app_inj_tail in Etail.
  destruct Etail as [Emin Eper].
  apply hours_inj in Ehour; [|lia|lia]. apply ampm_inj in Eper; [|lia|lia].
  apply minute_phrase_inj in Emin; [|assumption|assumption].
  f_equal; lia.
Qed.

(** Each name but [boot] is in the phrase of some clock reading, and
    [boot] is in none. *)
Lemma clip_announced (name : string) :
  In name clip_names ->
  (name <> boot ->
   exists h m, 0 <= h < 24 /\ 0 <= m < 60 /\ In (Some (Str name)) (phrase h m)) /\
  (name = boot ->
   forall h m, 0 <= h < 24 -> 0 <= m < 60 -> ~ In (Some (Str name)) (phrase h m)).
Proof.
  intros Hin. split.
  - intros Hboot.
    assert (Hall : forallb announced (tl clip_names) = true)
      by (vm_compute; reflexivity).
    rewrite forallb_forall in Hall.
    destruct Hin as [E | Hin]; [congruence|].
    specialize (Hall name Hin). unfold announced in Hall.
    apply existsb_exists in Hall. destruct Hall as ([h m] & Ht & Hex).
    apply existsb_exists in Hex. destruct Hex as (a & Ha & Eq).
    apply arg_eqb_eq in Eq. subst a.
    apply in_prod_iff in Ht. destruct Ht as [Hh Hm].
    apply upto_range in Hh, Hm. exists h, m. cbn [fst snd] in Ha. auto.
  - intros -> h m Hh Hm Hplayed.
    assert (Hno : announced boot = false) by (vm_compute; reflexivity).
    assert (Hyes : announced boot = true); [|congruence].
    unfold announced. apply existsb_exists. exists (h, m). split.
    + apply in_prod_iff. split; apply in_upto; assumption.
    + apply existsb_exists. exists (Some (Str boot)). split; [exact Hplayed|].
      reflexivity.
Qed.

(** ** The brightness values of a whole playback *)

Lemma mouth_run_count (samples : list Z) (w : Mouth.window) :
  List.length (snd (Mouth.run samples w)) =
    Z.to_nat ((Z.of_nat (List.length samples) + Mouth.counter w mod 256) / 256).
Proof.
  revert w. induction samples as [|s rest IH]; intros w.
  - cbn. lia.
  - rewrite mouth_run_cons. cbn [snd List.length]. unfold Mouth.step.
    destruct (Z.eqb_spec (int8 (Mouth.counter w + 1)) 0) as [E | E].
    + cbn [fst snd List.length]. rewrite IH. cbn [Mouth.counter].
      unfold int8 in *. lia.
    + destruct (s <? Mouth.lo w); [|destruct (Mouth.hi w <? s)];
        cbn [fst snd]; rewrite IH; cbn [Mouth.counter]; unfold int8 in *; lia.
Qed.

(** The state in which a complete window leaves the loop. *)
Lemma mouth_window_state (front rest : list Z) (s0 : Z) :
  Forall is_int8 (front ++ s0 :: rest) ->
  Z.of_nat (List.length front) mod 256 = 0 ->
  List.length rest = 255%nat ->
  let w := fst (Mouth.run (front ++ s0 :: rest) Mouth.init) in
  Mouth.inv w /\ int8 (Mouth.counter w + 1) = 0 /\
  Mouth.lo w = Mouth.minimum s0 rest /\ Mouth.hi w = Mouth.maximum s0 rest.
Proof.
  intros Hall Hfront Hrest w.
  destruct (mouth_run_inv _ Mouth.init mouth_init_inv Hall) as [Hw _].
  fold w in Hw. split; [exact Hw|].
  assert (Hf : Forall is_int8 front) by (apply Forall_app in Hall; tauto).
  destruct (mouth_run_inv front Mouth.init mouth_init_inv Hf) as [Hwf _].
  assert (Ef : int8 (Mouth.counter (fst (Mouth.run front Mouth.init)) + 1) = 0).
  { rewrite mouth_run_counter by (unfold is_int8; cbn; lia).
    unfold int8, Mouth.init; cbn [Mouth.counter]. lia. }
  split.
  - subst w. rewrite mouth_run_counter by (unfold is_int8; cbn; lia).
    rewrite length_app. cbn [List.length]. rewrite Hrest.
    unfold int8, Mouth.init; cbn [Mouth.counter]. lia.
  - assert (Ew : w = fst (Mouth.run rest
                   {| Mouth.lo := s0; Mouth.hi := s0; Mouth.counter := 0 |})).
    { subst w. rewrite mouth_run_app. cbn [fst].
      rewrite mouth_run_cons. cbn [fst].
      now rewrite (mouth_step_flush _ s0 Hwf Ef). }
    destruct (mouth_run_quiet rest
                {| Mouth.lo := s0; Mouth.hi := s0; Mouth.counter := 0 |})
      as (_ & Hmin & Hmax); [cbn; lia | cbn; lia |].
    rewrite <- Ew in Hmin, Hmax. cbn in Hmin, Hmax.
    unfold Mouth.minimum, Mouth.maximum. auto.
Qed.

(** How many values a run over the samples lists, and the first one. *)
Lemma mouth_run_writes (samples : list Z) :
  let writes := snd (Mouth.run samples Mouth.init) in
  List.length writes = Z.to_nat ((Z.of_nat (List.length samples) + 255) / 256) /\
  (samples <> [] -> hd_error writes = Some 0) /\
  ((0 < List.length samples <= 256)%nat -> writes = [0]).
Proof.
  intros writes.
  assert (Hcount : List.length writes
                   = Z.to_nat ((Z.of_nat (List.length samples) + 255) / 256)).
  { subst writes. rewrite mouth_run_count. reflexivity. }
  assert (Hhd : samples <> [] -> hd_error writes = Some 0).
  { subst writes. destruct samples as [|s rest]; [congruence|]. intros _.
    rewrite mouth_run_cons. reflexivity. }
  split; [exact Hcount|]. split; [exact Hhd|].
  intros Hlen.
  assert (Hone : List.length writes = 1%nat) by (rewrite Hcount; lia).
  destruct writes as [|b [|b' bs]]; try discriminate Hone.
  assert (Hne : samples <> []) by (destruct samples; [cbn in Hlen; lia | congruence]).
  specialize (Hhd Hne). cbn in Hhd. congruence.
Qed.

(** The value number [k + 1] that a run over the samples lists. *)
Lemma mouth_run_nth (samples : list Z) (k : nat) (s0 : Z) (rest : list Z) :
  Forall is_int8 samples ->
  (256 * (k + 1) < List.length samples)%nat ->
  firstn 256 (skipn (256 * k) samples) = s0 :: rest ->
  nth_error (snd (Mouth.run samples Mouth.init)) (S k) =
    Some (Mouth.clamp ((Mouth.maximum s0 rest - Mouth.minimum s0 rest) * 4) 0 255).
Proof.
  intros Hall Hlen Hwin.
  set (front := firstn (256 * k) samples).
  set (tail := skipn 256 (skipn (256 * k) samples)).
  assert (Esplit : samples = (front ++ s0 :: rest) ++ tail).
  { subst front tail. rewrite <- Hwin, <- app_assoc, (firstn_skipn 256).
    symmetry. apply firstn_skipn. }
  assert (Hfront : List.length front = (256 * k)%nat)
    by (subst front; rewrite length_firstn; lia).
  assert (Hrest : List.length rest = 255%nat).
  { assert (H : List.length (s0 :: rest) = 256%nat)
      by (rewrite <- Hwin, length_firstn, length_skipn; lia).
    cbn in H. lia. }
  assert (Htail : tail <> []).
  { intros E. rewrite E, app_nil_r in Esplit.
    rewrite Esplit, length_app in Hlen. cbn [List.length] in Hlen. lia. }
  destruct tail as [|s tail]; [congruence|]. clear Htail.
  rewrite Esplit in Hall. pose proof Hall as Hwindow.
  apply Forall_app in Hwindow. destruct Hwindow as [Hwindow _].
  destruct (mouth_window_state front rest s0 Hwindow) as (Hw & Ec & Elo & Ehi);
    [lia | exact Hrest |].
  rewrite Esplit, mouth_run_app. cbn [snd]. rewrite mouth_run_cons. cbn [snd].
  rewrite (mouth_step_flush _ s Hw Ec). cbn [snd]. rewrite Elo, Ehi.
  rewrite nth_error_app2; rewrite mouth_run_count, length_app; cbn [List.length];
    rewrite Hfront, Hrest; cbn [Mouth.counter Mouth.init].
  - replace (S k - _)%nat with 0%nat by lia. reflexivity.
  - lia.
Qed.

(** When the value computed after a complete window is 0, and when it is
    255. *)
Lemma mouth_window_level (front rest : list Z) (s0 s : Z) :
  Forall is_int8 (front ++ s0 :: rest) ->
  Z.of_nat (List.length front) mod 256 = 0 ->
  List.length rest = 255%nat ->
  exists b,
    snd (Mouth.step (fst (Mouth.run (front ++ s0 :: rest) Mouth.init)) s) = Some b /\
    (b = 0 <-> Forall (fun x => x = s0) rest) /\
    (b = 255 <-> exists x y, In x (s0 :: rest) /\ In y (s0 :: rest) /\ 64 <= y - x).
Proof.
  intros Hall Hfront Hrest.
  destruct (mouth_window_state front rest s0 Hall Hfront Hrest)
    as (Hw & Ec & Elo & Ehi).
  rewrite (mouth_step_flush _ s Hw Ec). cbn [snd]. rewrite Elo, Ehi.
  destruct (mouth_minimum_spec s0 rest) as [Hmin_in Hmin].
  destruct (mouth_maximum_spec s0 rest) as [Hmax_in Hmax].
  rewrite Forall_forall in Hmin, Hmax.
  pose proof (Hmin _ Hmax_in) as Hle.
  eexists. split; [reflexivity|]. unfold Mouth.clamp. split; split.
  - intros Hb. apply Forall_forall. intros x Hx.
    pose proof (Hmin x (or_intror Hx)). pose proof (Hmax x (or_intror Hx)).
    pose proof (Hmin s0 (or_introl eq_refl)).
    pose proof (Hmax s0 (or_introl eq_refl)). lia.
  - intros Heq. rewrite Forall_forall in Heq.
    assert (Hmin0 : Mouth.minimum s0 rest = s0)
      by (destruct Hmin_in as [E | Hin]; [now symmetry | now apply Heq]).
    assert (Hmax0 : Mouth.maximum s0 rest = s0)
      by (destruct Hmax_in as [E | Hin]; [now symmetry | now apply Heq]).
    lia.
  - intros Hb. exists (Mouth.minimum s0 rest), (Mouth.maximum s0 rest).
    split; [exact Hmin_in|]. split; [exact Hmax_in|]. lia.
  - intros (x & y & Hx & Hy & Hxy).
    pose proof (Hmin x Hx). pose proof (Hmax y Hy). lia.
Qed.

(** ** The eye-blink counter over several ticks *)

(** X7: in every state the interrupt can reach, the remaining-ticks
    counter is between 1 and 127, so its decrement never wraps around
    below zero; [blinking] stays a byte and, past the initial state, the
    eye LED is off exactly when [blinking] is odd. *)
Theorem eyes_counter_never_wraps (st : Eyes.blink) :
  Eyes.reachable st ->
  1 <= Eyes.counter st <= 127 /\
  uint8 (Eyes.counter st - 1) = Eyes.counter st - 1 /\
  0 <= Eyes.blinking st <= 255 /\
  (st <> Eyes.init ->
   (Eyes.pin9 st = Eyes.LOW <-> Eyes.blinking st mod 2 = 1)).
Proof.
  intros Hreach. destruct (eyes_reachable_inv st Hreach) as (Hc & Hb & Hp).
  split; [exact Hc|]. split; [apply uint8_small; lia|]. split; [exact Hb|].
  intros Hinit. destruct Hp as [-> | Hp]; [contradiction|]. rewrite Hp.
  destruct (Z.eqb_spec (Eyes.blinking st mod 2) 1); split; intros; congruence.
Qed.

Lemma eyes_counter_never_wraps_witness :
  let st := Eyes.TIMER2_OVF_vect 7 Eyes.init in
  1 <= Eyes.counter st <= 127 /\
  uint8 (Eyes.counter st - 1) = Eyes.counter st - 1 /\
  0 <= Eyes.blinking st <= 255 /\
  (st <> Eyes.init ->
   (Eyes.pin9 st = Eyes.LOW <-> Eyes.blinking st mod 2 = 1)).
Proof.
  apply (eyes_counter_never_wraps (Eyes.TIMER2_OVF_vect 7 Eyes.init)).
  apply (Eyes.reach_tick 7 Eyes.init); [unfold Eyes.RANDOM_MAX; lia|].
  apply Eyes.reach_init.
Defined.

(** While fewer ticks have passed than the counter holds, the ticks only
    count down, whatever [random()] would return. *)
Lemma eye_ticks_idle (rs : list Z) (st : Eyes.blink) :
  Z.of_nat (List.length rs) < Eyes.counter st <= 256 ->
  eye_ticks rs st =
    {| Eyes.counter := Eyes.counter st - Z.of_nat (List.length rs);
       Eyes.blinking := Eyes.blinking st; Eyes.pin9 := Eyes.pin9 st |}.
Proof.
  revert st. induction rs as [|r rs IH]; intros st Hc.
  - cbn. rewrite Z.sub_0_r. now destruct st.
  - cbn [List.length] in Hc. unfold eye_ticks in *. cbn [fold_left].
    assert (Eu : uint8 (Eyes.counter st - 1) = Eyes.counter st - 1)
      by (apply uint8_small; lia).
    rewrite eyes_tick_idle by lia. rewrite IH; rewrite Eu;
      cbn [Eyes.counter Eyes.blinking Eyes.pin9 List.length]; [|lia].
    f_equal. lia.
Qed.

(** X8: a dwell lasts exactly as many ticks as the counter holds: from a
    reachable state past the initial one with counter [c], the eye LED
    keeps its level during the next [c - 1] ticks and changes on tick
    number [c]. *)
Theorem eye_dwell_exact (st : Eyes.blink) (rs : list Z) (r : Z) :
  Eyes.reachable st -> st <> Eyes.init ->
  Z.of_nat (List.length rs) = Eyes.counter st - 1 ->
  0 <= r <= Eyes.RANDOM_MAX ->
  (forall n, Eyes.pin9 (eye_ticks (firstn n rs) st) = Eyes.pin9 st) /\
  Eyes.pin9 (Eyes.TIMER2_OVF_vect r (eye_ticks rs st)) <> Eyes.pin9 st.
Proof.
  intros Hreach Hinit Hlen [Hr _].
  destruct (eyes_reachable_inv st Hreach) as (Hc & Hb & Hp).
  destruct Hp as [-> | Hp]; [contradiction|]. split.
  - intros n. rewrite eye_ticks_idle; [reflexivity|].
    rewrite length_firstn. lia.
  - rewrite eye_ticks_idle by lia. rewrite Hlen.
    set (st1 := {| Eyes.counter := _; Eyes.blinking := _; Eyes.pin9 := _ |}).
    assert (E : uint8 (Eyes.counter st1 - 1) = 0)
      by (subst st1; cbn [Eyes.counter]; unfold uint8; lia).
    destruct (eyes_tick_zero r st1 Hr E)
      as (Eb & [(Ep & El & _) | (Ep & El & _)]);
      rewrite El, Hp; rewrite Eb in Ep; subst st1; cbn [Eyes.blinking] in Ep;
      unfold uint8 in Ep.
    + replace (Eyes.blinking st mod 2 =? 1) with false
        by (symmetry; apply Z.eqb_neq; lia). discriminate.
    + replace (Eyes.blinking st mod 2 =? 1) with true
        by (symmetry; apply Z.eqb_eq; lia). discriminate.
Qed.

Lemma eye_dwell_exact_witness :
  let st := Eyes.TIMER2_OVF_vect 7 Eyes.init in
  (forall n, Eyes.pin9 (eye_ticks (firstn n (repeat 0 14)) st) = Eyes.pin9 st) /\
  Eyes.pin9 (Eyes.TIMER2_OVF_vect 3 (eye_ticks (repeat 0 14) st)) <> Eyes.pin9 st.
Proof.
  apply (eye_dwell_exact (Eyes.TIMER2_OVF_vect 7 Eyes.init) (repeat 0 14) 3).
  - apply (Eyes.reach_tick 7 Eyes.init); [unfold Eyes.RANDOM_MAX; lia|].
    apply Eyes.reach_init.
  - discriminate.
  - reflexivity.
  - unfold Eyes.RANDOM_MAX. lia.
Defined.

(** ** The debounce filter after a release *)

Lemma polls_app (ps qs : list (bool * Z)) (d : Z) :
  polls (ps ++ qs) d =
    (fst (polls ps d) ++ fst (polls qs (snd (polls ps d))),
     snd (polls qs (snd (polls ps d)))).
Proof.
  revert d. induction ps as [|[pressed now] ps IH]; intros d.
  - cbn. now destruct (polls qs d).
  - cbn [app polls]. destruct (poll pressed now d) as [e d1]. rewrite IH.
    destruct (polls ps d1) as [es d2]. reflexivity.
Qed.

Lemma polls_pressed_deadline (held : list Z) (d : Z) :
  snd (polls (map (fun now => (true, now)) held) d) = d.
Proof.
  induction held as [|now held IH]; [reflexivity|].
  cbn [map polls]. unfold poll at 1.
  destruct (0 <=? int32 (uint32 (now - d)));
    destruct (polls _ d) as [es d']; cbn in *; exact IH.
Qed.

(** The polls after a release: the edge of a later pressed poll is decided
    by the 15 ms since the release. *)
Lemma polls_after_release
  (pre : list (bool * Z)) (held : list Z) (d t_r t : Z) :
  t_r <= t < t_r + 15 + 2147483648 ->
  let before := pre ++ (false, uint32 t_r) :: map (fun now => (true, now)) held in
  polls (before ++ [(true, uint32 t)]) d =
    (fst (polls before d) ++ [t_r + 15 <=? t], uint32 (t_r + 15)).
Proof.
  intros Ht before.
  assert (Ed : snd (polls before d) = uint32 (t_r + 15)).
  { subst before. rewrite polls_app. cbn [snd polls]. unfold poll at 1.
    destruct (polls (map _ held) _) as [es d'] eqn:E. cbn [snd].
    pose proof (polls_pressed_deadline held (uint32 (uint32 t_r + 15))) as H.
    rewrite E in H. cbn in H. subst d'. unfold uint32. lia. }
  rewrite polls_app, Ed. cbn [polls fst snd]. unfold poll.
  assert (Etest : (0 <=? int32 (uint32 (uint32 t - uint32 (t_r + 15))))
                  = (t_r + 15 <=? t)).
  { destruct (Z.leb_spec (t_r + 15) t);
      [apply Z.leb_le | apply Z.leb_gt]; unfold int32, uint32; lia. }
  rewrite Etest. destruct (t_r + 15 <=? t); reflexivity.
Qed.

(** ** Whole passes and runs of the sketch *)

Lemma dac_ramp_events (e : boot_event) :
  In e dac_ramp ->
  exists i, 0 <= i < 2048 /\ (e = BDacSend i \/ e = BDelayMicroseconds 10).
Proof.
  unfold dac_ramp. intros Hin. apply in_flat_map in Hin.
  destruct Hin as (i & Hi & [<- | [<- | []]]); apply upto_range in Hi;
    exists i; (split; [lia | auto]).
Qed.

Section RunFacts.

Context {W : WaveShield}.

Lemma after_writes_last (p : pin_mode) (bs : list Z) :
  bs <> [] -> exists b, In b bs /\ after_writes p bs = PWM b.
Proof.
  revert p. induction bs as [|b bs IH]; intros p Hne; [congruence|].
  destruct bs as [|b' bs].
  - exists b. split; [now left | reflexivity].
  - destruct (IH (PWM b)) as (c & Hin & E); [discriminate|].
    exists c. split; [now right | exact E].
Qed.

(** Playing stops in undefined behaviour at the first argument that is
    not a name. *)
Lemma play_all_undefined (names : list string) (bad : option cptr)
      (rest : list (option cptr)) (st : sketch) :
  Forall short_name names -> filename_ok (filename st) ->
  bad = None \/ bad = Some NULL ->
  play_all (map (fun n => Some (Str n)) names ++ bad :: rest) st = None.
Proof.
  intros Hnames. revert st.
  induction Hnames as [|name names Hname _ IH]; intros st Hbuf Hbad.
  - cbn [map app play_all]. unfold bind. destruct Hbad as [-> | ->]; reflexivity.
  - destruct (playfile_spec name st Hbuf Hname)
      as (st1 & tr & Eplay & _ & _ & _ & Hbuf1 & _).
    cbn [map app play_all play_arg]. unfold bind. rewrite Eplay.
    now apply IH.
Qed.

(** A clock reading outside a time of day makes some table read fall
    outside its table, after one or two clips. *)
Lemma phrase_out_of_range (h m : Z) :
  0 <= h < 256 -> 0 <= m < 256 -> ~ (h < 24 /\ m < 60) ->
  exists names rest,
    Forall short_name names /\
    phrase h m = map (fun n => Some (Str n)) names ++ None :: rest.
Proof.
  intros Hh Hm Hout.
  assert (Hannc : short_name annc) by (apply clip_name_short; cbn; tauto).
  unfold phrase, lookups.
  destruct (Z.lt_ge_cases h 24) as [Hh24 | Hh24].
  - assert (Hm60 : 60 <= m) by lia.
    set (h' := if 12 <=? h then uint8 (h - 12) else h).
    assert (Hh' : 0 <= h' < 12)
      by (subst h'; destruct (Z.leb_spec 12 h); unfold uint8; lia).
    destruct (read_in_table Hours h') as (_ & _ & hour & Hr & Hin);
      [cbn; lia | congruence |].
    assert (Ehi : uint8 (m / 10) = m / 10) by (unfold uint8; lia).
    assert (Elo : uint8 (m mod 10) = m mod 10) by (unfold uint8; lia).
    assert (Etens : read (MTens, m / 10) = None)
      by (apply pgm_read_word_outside; cbn; lia).
    assert (Etenx : read (MTenX, m / 10) = None)
      by (apply pgm_read_word_outside; cbn; lia).
    exists [annc; hour]. unfold minute_lookups. rewrite Ehi, Elo.
    assert (Eh1 : (m / 10 =? 1) = false) by (apply Z.eqb_neq; lia).
    rewrite Eh1.
    destruct (12 <=? h); destruct (m mod 10 =? 0); cbn [app map];
      fold h' in Hr |- *; rewrite Hr, ?Etens, ?Etenx;
      eexists;
      (split; [constructor; [exact Hannc|]; constructor;
               [apply clip_name_short; exact Hin | constructor]|]);
      reflexivity.
  - assert (E12 : (12 <=? h) = true) by (apply Z.leb_le; lia).
    rewrite E12.
    assert (Ehour : read (Hours, uint8 (h - 12)) = None)
      by (apply pgm_read_word_outside; cbn; unfold uint8; lia).
    exists [annc]. cbn [app map]. rewrite Ehour.
    eexists. split; [constructor; [exact Hannc | constructor] | reflexivity].
Qed.

(** X10: [loop] does not check what the clock returns.  With the
    announcement due, the pass is defined exactly for an hour below 24
    and a minute below 60; any other reading (both are bytes) makes it
    read outside a clip table. *)
Theorem loop_defined_iff (h m now : Z) (st : sketch) :
  0 <= h < 256 -> 0 <= m < 256 -> filename_ok (filename st) ->
  fst (poll true now (debounceTime st)) = true ->
  (loop true now h m st = None <-> ~ (h < 24 /\ m < 60)).
Proof.
  intros Hh Hm Hbuf Hedge. rewrite loop_poll, Hedge. split.
  - intros Enone [Hh24 Hm60].
    destruct (announce_spec h m st) as (st' & names & _ & Eann & _);
      [lia | lia | assumption | congruence].
  - intros Hout.
    destruct (phrase_out_of_range h m Hh Hm Hout) as (names & rest & Hshort & E).
    unfold announce, bind. rewrite E.
    now rewrite (play_all_undefined names None rest st Hshort Hbuf (or_introl eq_refl)).
Qed.

(** One pass through [loop] from a state as [setup] and every earlier pass
    leave it. *)
Lemma loop_pass (pressed : bool) (now h m : Z) (st : sketch) :
  filename_ok (filename st) -> LEDMOUTH st = INPUT ->
  0 <= h < 24 -> 0 <= m < 60 ->
  exists st',
    loop pressed now h m st = Some (tt, st') /\
    filename_ok (filename st') /\ LEDMOUTH st' = INPUT /\
    debounceTime st' = snd (poll pressed now (debounceTime st)) /\
    opened (trace st') =
      opened (trace st) ++
      (if fst (poll pressed now (debounceTime st))
       then map file_of (phrase h m) else []).
Proof.
  intros Hbuf Hpin Hh Hm. rewrite loop_poll.
  destruct (fst (poll pressed now (debounceTime st))) eqn:Hedge.
  - destruct (announce_spec h m st Hh Hm Hbuf)
      as (st' & names & Enames & Eann & Hoff & Eop & Hbuf' & Ed).
    exists st'. split; [exact Eann|]. split; [exact Hbuf'|].
    split; [exact Hoff|]. split.
    + rewrite Ed. revert Hedge. unfold poll. destruct pressed; [|discriminate].
      now destruct (0 <=? _).
    + rewrite Eop, Enames, map_map. reflexivity.
  - eexists. unfold set_debounceTime. split; [reflexivity|].
    cbn [LEDMOUTH filename debounceTime trace world].
    rewrite app_nil_r. auto.
Qed.

Lemma loops_spec (ps : list (bool * Z * Z * Z)) (st : sketch) :
  Forall clock_ok ps -> filename_ok (filename st) -> LEDMOUTH st = INPUT ->
  exists st',
    loops ps st = Some (tt, st') /\
    filename_ok (filename st') /\ LEDMOUTH st' = INPUT /\
    opened (trace st') = opened (trace st) ++ run_files ps (debounceTime st).
Proof.
  intros Hps. revert st.
  induction Hps as [|[[[pressed now] h] m] ps [Hh Hm] _ IH]; intros st Hbuf Hpin.
  - exists st. cbn. rewrite app_nil_r. auto.
  - cbn [fst snd] in Hh, Hm.
    destruct (loop_pass pressed now h m st Hbuf Hpin Hh Hm)
      as (st1 & Eloop & Hbuf1 & Hpin1 & Ed & Eop).
    destruct (IH st1 Hbuf1 Hpin1) as (st2 & Eloops & Hbuf2 & Hpin2 & Eop2).
    exists st2. cbn [loops run_files]. unfold bind. rewrite Eloop, Eloops.
    split; [reflexivity|]. split; [exact Hbuf2|]. split; [exact Hpin2|].
    rewrite Eop2, Eop, Ed. destruct (poll pressed now (debounceTime st)) as [e d].
    cbn [fst snd]. now rewrite app_assoc.
Qed.

(** The end of [setup]: the startup sound is attempted and the sketch is
    left as [loop] needs it. *)
Lemma setup_end_spec (w : World) :
  exists st,
    setup_end (power_on w) = Some (tt, st) /\
    filename_ok (filename st) /\ LEDMOUTH st = INPUT /\
    debounceTime st = 0 /\ opened (trace st) = ["boot.WAV"%string].
Proof.
  assert (Hboot : short_name boot) by (apply clip_name_short; cbn; tauto).
  destruct (playfile_spec boot (power_on w) filename_init_ok Hboot)
    as (st1 & tr & Eplay & Etr & Eop & _ & Hbuf & Ed).
  eexists. unfold setup_end, bind. rewrite Eplay. unfold pinMode_LEDMOUTH_INPUT.
  split; [reflexivity|]. cbn [LEDMOUTH filename debounceTime trace world].
  split; [exact Hbuf|]. split; [reflexivity|]. split; [exact Ed|].
  rewrite opened_app, Etr. cbn [power_on trace app opened]. rewrite Eop. reflexivity.
Qed.

Lemma setup_ready (b : board) (w : World) (log : list boot_event) (st : sketch) :
  setup b w = Ready log st ->
  filename_ok (filename st) /\ LEDMOUTH st = INPUT /\
  debounceTime st = 0 /\ opened (trace st) = ["boot.WAV"%string].
Proof.
  unfold setup, error. destruct (setup_end_spec w) as (st0 & E & H). rewrite E.
  destruct (negb (card_init b)); [discriminate|].
  destruct (negb (vol_init b)); [discriminate|].
  destruct (negb (root_openRoot b)); [discriminate|].
  intros [= _ <-]. exact H.
Qed.

(** X11: once [setup] has completed, any number of passes through [loop]
    with clock readings that are times of day runs without undefined
    behaviour, and every pass returns with the mouth LED pin switched off
    (an input) and the filename buffer intact. *)
Theorem sketch_run_safe (b : board) (w : World) (log : list boot_event)
        (st0 : sketch) (ps : list (bool * Z * Z * Z)) :
  setup b w = Ready log st0 -> Forall clock_ok ps ->
  exists st,
    loops ps st0 = Some (tt, st) /\ LEDMOUTH st = INPUT /\
    filename_ok (filename st).
Proof.
  intros Hsetup Hps.
  destruct (setup_ready b w log st0 Hsetup) as (Hbuf & Hpin & _ & _).
  destruct (loops_spec ps st0 Hps Hbuf Hpin) as (st & E & Hbuf' & Hpin' & _).
  exists st. auto.
Qed.

(** X12: the files the sketch opens over a whole run are decided by the
    button and the clock alone, not by what the card holds: the startup
    sound, then for each pass in which the debounce filter lets the press
    through, the files of the phrase of the time read in that pass, in
    order; each is the file of one of the sketch's clips. *)
Theorem sketch_run_files (b : board) (w : World) (log : list boot_event)
        (st0 : sketch) (ps : list (bool * Z * Z * Z)) :
  setup b w = Ready log st0 -> Forall clock_ok ps ->
  exists st,
    loops ps st0 = Some (tt, st) /\
    opened (trace st) = "boot.WAV"%string :: run_files ps 0 /\
    Forall clip_file (opened (trace st)).
Proof.
  intros Hsetup Hps.
  destruct (setup_ready b w log st0 Hsetup) as (Hbuf & Hpin & Hd & Hboot).
  destruct (loops_spec ps st0 Hps Hbuf Hpin) as (st & E & _ & _ & Eop).
  exists st. split; [exact E|]. rewrite Hd, Hboot in Eop.
  split; [exact Eop|]. rewrite Eop. constructor.
  - exists boot. split; [now left | reflexivity].
  - clear - Hps. generalize 0 at 1.
    induction Hps as [|[[[pressed now] h] m] ps [Hh Hm] _ IH];
      intros d; [constructor|].
    cbn [run_files fst snd] in *. destruct (poll pressed now d) as [[|] d'];
      [|apply IH].
    apply Forall_app. split; [|apply IH].
    apply Forall_map. apply Forall_forall. intros a Ha.
    assert (Hclips : Forall is_clip (phrase h m)).
    { unfold phrase. constructor.
      - exists annc. split; [reflexivity | unfold clip_names; cbn; tauto].
      - apply Forall_map. eapply Forall_impl; [|apply (lookups_ok h m Hh Hm)].
        intros l (_ & _ & name & Hr & Hin). exists name. now split. }
    rewrite Forall_forall in Hclips. destruct (Hclips a Ha) as (name & -> & Hin).
    exists name. split; [exact Hin | reflexivity].
Qed.

(** X13: [setup] halts in [error], with the message of the first step of
    the card initialisation that fails as the last thing it does, exactly
    when one of the three steps fails; it has then opened no clip and has
    not started the eye-blink timer.  When the three steps succeed it
    completes, whatever the card holds: the timer interrupt is enabled,
    the startup sound is the one file tried, and the mouth pin is an input.
    A clock that is not running is set and reported, and never stops
    [setup]. *)
Theorem setup_outcome (b : board) (w : World) :
  (card_init b = false ->
   exists log, setup b w = Halted (log ++ [BSerialPrintln "Card init failed"])) /\
  (card_init b = true -> vol_init b = false ->
   exists log, setup b w = Halted (log ++ [BSerialPrintln "No partition"])) /\
  (card_init b = true -> vol_init b = true -> root_openRoot b = false ->
   exists log, setup b w = Halted (log ++ [BSerialPrintln "Couldn't open dir"])) /\
  (card_init b = true -> vol_init b = true -> root_openRoot b = true ->
   exists log st,
     setup b w = Ready log st /\ In (BOrAssign TIMSK2 (_BV TOIE2)) log /\
     LEDMOUTH st = INPUT /\ opened (trace st) = ["boot.WAV"%string]) /\
  (forall log,
      setup b w = Halted log ->
      (forall r v, ~ In (BAssign r v) log /\ ~ In (BOrAssign r v) log) /\
      (card_init b && vol_init b && root_openRoot b = false)) /\
  (forall log,
      setup b w = Halted log \/ (exists st, setup b w = Ready log st) ->
      (In BRtcAdjust log <-> rtc_isrunning b = false)).
Proof.
  destruct (setup_end_spec w) as (st0 & Eend & _ & Hpin & _ & Hboot).
  unfold setup, error. rewrite Eend.
  assert (Hramp : forall e, In e dac_ramp ->
                            forall P : Prop,
                              (forall i, e = BDacSend i -> P) ->
                              (e = BDelayMicroseconds 10 -> P) -> P).
  { intros e He P H1 H2. destruct (dac_ramp_events e He) as (i & _ & [E | E]); eauto. }
  set (ramp := dac_ramp) in *. clearbody ramp.
  destruct b as [rtc card vol root]. cbn [rtc_isrunning card_init vol_init root_openRoot].
  split; [|split; [|split; [|split; [|split]]]].
  - intros ->. eexists. reflexivity.
  - intros -> ->. eexists. reflexivity.
  - intros -> -> ->. eexists. reflexivity.
  - intros -> -> ->. cbn [negb]. do 2 eexists. split; [reflexivity|].
    split; [|split; assumption].
    apply in_or_app. right. cbn. tauto.
  - intros log H. split.
    + intros r v.
      destruct card, vol, root, rtc; cbn [negb] in H; try discriminate H;
        injection H as <-; split;
        cbn [In app]; rewrite ?in_app_iff; cbn [In]; intros Hin;
        repeat destruct Hin as [Hin | Hin]; try discriminate Hin;
        try contradiction; apply (Hramp _ Hin); discriminate.
    + destruct card, vol, root; cbn [negb] in H; try discriminate H; reflexivity.
  - intros log H. split.
    + intros Hin. destruct rtc; [|reflexivity]. exfalso.
      destruct H as [H | [st H]];
        destruct card, vol, root; cbn [negb] in H; try discriminate H;
        injection H; intros; subst log; revert Hin;
        cbn [In app]; rewrite ?in_app_iff; cbn [In]; intros Hin;
        repeat destruct Hin as [Hin | Hin]; try discriminate Hin;
        try contradiction; apply (Hramp _ Hin); discriminate.
    + intros ->.
      destruct H as [H | [st H]];
        destruct card, vol, root; cbn [negb] in H; try discriminate H;
        injection H; intros; subst log;
        cbn [In app]; rewrite ?in_app_iff; cbn [In]; tauto.
Qed.

End RunFacts.

(** ** The further properties on the example card *)

Lemma loop_defined_iff_witness :
  loop true 20 24 0 example_start = None /\
  loop true 20 23 60 example_start = None /\
  loop true 20 23 59 example_start <> None.
Proof.
  assert (Hbuf : filename_ok (filename example_start)) by (split; reflexivity).
  split; [|split].
  - apply (loop_defined_iff (W:=example_shield) 24 0 20 example_start);
      [lia | lia | exact Hbuf | reflexivity | lia].
  - apply (loop_defined_iff (W:=example_shield) 23 60 20 example_start);
      [lia | lia | exact Hbuf | reflexivity | lia].
  - intros E.
    apply (loop_defined_iff (W:=example_shield) 23 59 20 example_start) in E;
      [lia | lia | lia | exact Hbuf | reflexivity].
Defined.

Lemma sketch_run_safe_witness :
  match setup (W:=example_shield)
          {| rtc_isrunning := false; card_init := true;
             vol_init := true; root_openRoot := true |} (false, []) with
  | Ready _ st0 =>
      exists st,
        loops [(false, 100, 23, 45); (true, 105, 23, 45); (true, 115, 23, 45);
               (true, 4115, 23, 46)] st0 = Some (tt, st) /\
        LEDMOUTH st = INPUT /\ filename_ok (filename st)
  | _ => False
  end.
Proof.
  destruct (setup _ _) as [log | log st0 |] eqn:E;
    [vm_compute in E; discriminate E | | vm_compute in E; discriminate E].
  apply (sketch_run_safe _ _ _ _ _ E).
  repeat constructor; cbn; lia.
Defined.

Lemma sketch_run_files_witness :
  match setup (W:=example_shield)
          {| rtc_isrunning := true; card_init := true;
             vol_init := true; root_openRoot := true |} (false, []) with
  | Ready _ st0 =>
      exists st,
        loops [(false, 100, 23, 45); (true, 105, 23, 45); (true, 115, 0, 0)] st0
        = Some (tt, st) /\
        opened (trace st) =
          "boot.WAV"%string
          :: run_files [(false, 100, 23, 45); (true, 105, 23, 45); (true, 115, 0, 0)] 0 /\
        Forall clip_file (opened (trace st))
  | _ => False
  end.
Proof.
  destruct (setup _ _) as [log | log st0 |] eqn:E;
    [vm_compute in E; discriminate E | | vm_compute in E; discriminate E].
  apply (sketch_run_files _ _ _ _ _ E).
  repeat constructor; cbn; lia.
Defined.

Lemma setup_outcome_witness :
  (exists log,
      setup (W:=example_shield)
        {| rtc_isrunning := true; card_init := true;
           vol_init := false; root_openRoot := true |} (false, [])
      = Halted (log ++ [BSerialPrintln "No partition"])) /\
  (exists log st,
      setup (W:=example_shield)
        {| rtc_isrunning := false; card_init := true;
           vol_init := true; root_openRoot := true |} (false, [])
      = Ready log st /\ In (BOrAssign TIMSK2 (_BV TOIE2)) log /\
      LEDMOUTH st = INPUT /\ opened (trace st) = ["boot.WAV"%string]).
Proof.
  split.
  - apply (setup_outcome (W:=example_shield)
             {| rtc_isrunning := true; card_init := true;
                vol_init := false; root_openRoot := true |} (false, []));
      reflexivity.
  - apply (setup_outcome (W:=example_shield)
             {| rtc_isrunning := false; card_init := true;
                vol_init := true; root_openRoot := true |} (false, []));
      reflexivity.
Defined.


(** * The properties as the sketch performs them

    The statements above are about the phrase, the polls and the envelope
    as functions.  The theorems of this part state the same properties of
    what [loop], [playfile] and the sample loop do: the files they open,
    the values they write to the mouth LED, the state they leave. *)

Lemma chars_append (s u : string) :
  list_ascii_of_string (s ++ u) = list_ascii_of_string s ++ list_ascii_of_string u.
Proof. induction s as [|c s IH]; cbn; [reflexivity | now rewrite IH]. Qed.

Lemma append_cancel_r (s t u : string) : (s ++ u)%string = (t ++ u)%string -> s = t.
Proof.
  intros E. apply (f_equal list_ascii_of_string) in E.
  rewrite !chars_append in E. apply app_inv_tail in E.
  rewrite <- (string_of_list_ascii_of_string s), <- (string_of_list_ascii_of_string t).
  now rewrite E.
Qed.

Lemma file_of_inj (p q : list (option cptr)) :
  Forall is_clip p -> Forall is_clip q -> map file_of p = map file_of q -> p = q.
Proof.
  intros Hp. revert q.
  induction Hp as [|a p (n & -> & _) _ IH]; intros q Hq E.
  - destruct q; [reflexivity | discriminate].
  - destruct Hq as [|b q (n' & -> & _) Hq]; [discriminate|].
    cbn [map file_of] in E. injection E as En Erest.
    apply append_cancel_r in En. subst n'. f_equal. now apply IH.
Qed.

Lemma phrase_clips (h m : Z) :
  0 <= h < 24 -> 0 <= m < 60 -> Forall is_clip (phrase h m).
Proof.
  intros Hh Hm. unfold phrase. constructor.
  - exists annc. split; [reflexivity | unfold clip_names; cbn; tauto].
  - apply Forall_map. eapply Forall_impl; [|apply (lookups_ok h m Hh Hm)].
    intros l (_ & _ & name & Hr & Hin). exists name. now split.
Qed.

Lemma clips_files (args : list (option cptr)) :
  Forall is_clip args -> Forall clip_file (map file_of args).
Proof.
  intros H. apply Forall_map. eapply Forall_impl; [|exact H].
  intros a (name & -> & Hin). exists name. now split.
Qed.

Lemma names_files (names : list string) :
  map file_of (map (fun n => Some (Str n)) names)
  = map (fun n => (n ++ ".WAV")%string) names.
Proof. rewrite map_map. reflexivity. Qed.

Lemma after_writes_cases (p : pin_mode) (bs : list Z) :
  (bs = [] -> after_writes p bs = p) /\
  (bs <> [] -> after_writes p bs = PWM (last bs 0)).
Proof.
  split; [intros ->; reflexivity|].
  revert p. induction bs as [|b bs IH]; intros p Hne; [congruence|].
  destruct bs as [|b' bs]; [reflexivity|].
  change (after_writes p (b :: b' :: bs)) with (after_writes (PWM b) (b' :: bs)).
  rewrite IH by discriminate. reflexivity.
Qed.

Lemma after_writes_snoc (p : pin_mode) (bs : list Z) (b : Z) :
  after_writes p (bs ++ [b]) = PWM b.
Proof. unfold after_writes. rewrite fold_left_app. reflexivity. Qed.

Lemma no_input_writes (bs : list Z) : ~ In EvPinModeInput (map EvAnalogWrite bs).
Proof. intros Hin. apply in_map_iff in Hin. destruct Hin as (b & E & _). discriminate. Qed.

Section Playback.

Context {W : WaveShield}.

(** One call of [playfile] for a name that fits the buffer: the events it
    adds start with the one open and never include a [pinMode]. *)
Lemma playfile_trace (name : string) (st : sketch) :
  filename_ok (filename st) -> short_name name ->
  exists st' tr,
    playfile name st = Some (tt, st') /\
    trace st' = trace st ++ EvOpen (name ++ ".WAV")%string :: tr /\
    opened tr = [] /\ ~ In EvPinModeInput tr /\
    LEDMOUTH st' = after_writes (LEDMOUTH st) (written tr) /\
    filename_ok (filename st') /\
    debounceTime st' = debounceTime st.
Proof.
  intros Hbuf Hname. rewrite (playfile_unfold name st Hbuf Hname).
  destruct (filename_prepend (filename st) name Hbuf Hname) as [_ Hbuf'].
  destruct (file_open _ (world st)) as [[|] w1];
    [destruct (wave_create w1) as [[|] w2];
     [destruct (wave_play w2) as [samples w3]|]|];
    eexists; eexists; (split; [reflexivity|]);
    cbn [LEDMOUTH filename debounceTime trace world];
    (split; [reflexivity|]); cbn [opened written];
    rewrite ?opened_writes, ?written_writes;
    (split; [reflexivity|]); (split; [|auto]);
    cbn [In]; intros Hin;
    repeat destruct Hin as [Hin | Hin]; try discriminate Hin; try contradiction.
  exact (no_input_writes _ Hin).
Qed.

Lemma play_all_trace (names : list string) (st : sketch) :
  Forall short_name names -> filename_ok (filename st) ->
  exists st' tr,
    play_all (map (fun n => Some (Str n)) names) st = Some (tt, st') /\
    trace st' = trace st ++ tr /\ ~ In EvPinModeInput tr /\
    opened tr = map (fun n => (n ++ ".WAV")%string) names /\
    filename_ok (filename st') /\
    debounceTime st' = debounceTime st.
Proof.
  intros Hnames. revert st.
  induction Hnames as [|name names Hname _ IH]; intros st Hbuf.
  - exists st, []. cbn. rewrite app_nil_r.
    split; [reflexivity|]. split; [reflexivity|]. split; [tauto|].
    split; [reflexivity|]. split; [exact Hbuf | reflexivity].
  - destruct (playfile_trace name st Hbuf Hname)
      as (st1 & tr1 & Eplay & Etr & Eop & Hno & _ & Hbuf1 & Ed1).
    destruct (IH st1 Hbuf1) as (st2 & tr2 & Eall & Etr2 & Hno2 & Eop2 & Hbuf2 & Ed2).
    exists st2, ((EvOpen (name ++ ".WAV")%string :: tr1) ++ tr2).
    cbn [map play_all play_arg]. unfold bind. rewrite Eplay, Eall.
    split; [reflexivity|]. split; [rewrite Etr2, Etr, <- app_assoc; reflexivity|].
    split.
    + rewrite in_app_iff. cbn [In]. intros [[E | Hin] | Hin];
        [discriminate | now apply Hno | now apply Hno2].
    + split; [|split; [assumption | congruence]].
      rewrite opened_app. cbn [opened map]. rewrite Eop, Eop2. reflexivity.
Qed.

(** A pass of [loop] that lets the press through plays the clips of the
    phrase, in order, and then switches the mouth off, once. *)
Lemma loop_announces (h m now : Z) (st : sketch) :
  0 <= h < 24 -> 0 <= m < 60 -> filename_ok (filename st) ->
  fst (poll true now (debounceTime st)) = true ->
  exists st' tr,
    loop true now h m st = Some (tt, st') /\
    trace st' = trace st ++ tr ++ [EvPinModeInput] /\
    ~ In EvPinModeInput tr /\
    opened tr = map file_of (phrase h m) /\
    opened (trace st') = opened (trace st) ++ map file_of (phrase h m) /\
    LEDMOUTH st' = INPUT /\
    filename_ok (filename st') /\
    debounceTime st' = debounceTime st.
Proof.
  intros Hh Hm Hbuf Hedge.
  destruct (clips_names _ (phrase_clips h m Hh Hm)) as (names & Enames & Hin).
  assert (Hshort : Forall short_name names).
  { eapply Forall_impl; [|exact Hin]. exact clip_name_short. }
  destruct (play_all_trace names st Hshort Hbuf)
    as (st1 & tr & Eall & Etr & Hno & Eop & Hbuf1 & Ed).
  rewrite loop_poll, Hedge. unfold announce, bind. rewrite Enames, Eall.
  unfold pinMode_LEDMOUTH_INPUT. eexists; exists tr. split; [reflexivity|].
  cbn [LEDMOUTH filename debounceTime trace world].
  rewrite names_files, <- Eop.
  split; [rewrite Etr, <- app_assoc; reflexivity|]. split; [exact Hno|].
  split; [reflexivity|]. split; [|auto].
  rewrite Etr, !opened_app. cbn [opened]. rewrite app_nil_r. reflexivity.
Qed.

(** C1 (as amended): for every hour in 0..23 and minute in 0..59, a pass
    of [loop] that starts the announcement opens, in order, the files of
    the phrase (announcement, hour clip, minute-phrase clip or clips,
    period clip), each the file of one of the sketch's clips; there are 4
    or 5 of them: 4 exactly when the ones digit of the minute is 0 or the
    minute is 11..19, and 5 otherwise. *)
Theorem phrase_length (h m now : Z) (st : sketch) :
  0 <= h < 24 -> 0 <= m < 60 -> filename_ok (filename st) ->
  fst (poll true now (debounceTime st)) = true ->
  exists st' files,
    loop true now h m st = Some (tt, st') /\
    opened (trace st') = opened (trace st) ++ files /\
    files = map file_of (phrase h m) /\
    Forall clip_file files /\
    (4 <= List.length files <= 5)%nat /\
    (List.length files = 4%nat <-> (m mod 10 = 0 \/ 11 <= m <= 19)).
Proof.
  intros Hh Hm Hbuf Hedge.
  destruct (loop_announces h m now st Hh Hm Hbuf Hedge)
    as (st' & tr & Eloop & _ & _ & _ & Eop & _).
  destruct (phrase_count h m Hh Hm) as (Hlen & Hfour & Hclips).
  exists st', (map file_of (phrase h m)). rewrite length_map.
  split; [exact Eloop|]. split; [exact Eop|]. split; [reflexivity|].
  split; [now apply clips_files|]. split; assumption.
Qed.

(** C4: in a pass of [loop] that starts the announcement, for every hour
    in 0..23 and minute in 0..59, the files opened are, in order, the
    announcement, the hour clip [hours[h mod 12]], the minute clips and
    the period clip [ampm[h / 12]]; the minute clips follow three mutually
    exclusive branches: ones digit 0 gives exactly the exact-tens clip
    [mTens[hi]]; minute 11..19 gives exactly the teen clip
    [mTeens[minute-11]]; any other minute gives exactly two clips,
    [mTenX[hi]] then [mins[lo-1]].  In particular (23,45) plays annc, h11,
    m4x, m5, pm, and likewise (0,0), (13,5) and (0,30). *)
Theorem minute_phrase_branches (h m now : Z) (st : sketch) :
  0 <= h < 24 -> 0 <= m < 60 -> filename_ok (filename st) ->
  fst (poll true now (debounceTime st)) = true ->
  let hi := m / 10 in
  let lo := m mod 10 in
  exists st' hour period minutes,
    loop true now h m st = Some (tt, st') /\
    opened (trace st') =
      opened (trace st) ++
      "annc.WAV"%string :: (hour ++ ".WAV")%string
        :: map (fun n => (n ++ ".WAV")%string) minutes ++ [(period ++ ".WAV")%string] /\
    pgm_read_word hours (h mod 12) = Some (Str hour) /\
    pgm_read_word ampm (h / 12) = Some (Str period) /\
    minute_phrase m = map (fun n => Some (Str n)) minutes /\
    (lo = 0 ->
     exists tens, minutes = [tens] /\ pgm_read_word mTens hi = Some (Str tens)) /\
    (11 <= m <= 19 ->
     exists teen, minutes = [teen] /\
                  pgm_read_word mTeens (m - 11) = Some (Str teen)) /\
    (lo <> 0 -> ~ 11 <= m <= 19 ->
     exists prefix ones,
       minutes = [prefix; ones] /\
       pgm_read_word mTenX hi = Some (Str prefix) /\
       pgm_read_word mins (lo - 1) = Some (Str ones)) /\
    ~ (lo = 0 /\ 11 <= m <= 19) /\
    (h = 23 -> m = 45 -> hour = h11 /\ minutes = [m4x; m5] /\ period = pm) /\
    (h = 0 -> m = 0 -> hour = h12 /\ minutes = [m00] /\ period = am) /\
    (h = 13 -> m = 5 -> hour = h01 /\ minutes = [m0x; m5] /\ period = pm) /\
    (h = 0 -> m = 30 -> hour = h12 /\ minutes = [m30] /\ period = am).
Proof.
  intros Hh Hm Hbuf Hedge hi lo. subst hi lo.
  destruct (loop_announces h m now st Hh Hm Hbuf Hedge)
    as (st' & tr & Eloop & _ & _ & _ & Eop & _).
  destruct (read_in_table Hours (h mod 12)) as (_ & _ & hour & Hhour & _);
    [cbn; lia | congruence |].
  destruct (read_in_table Ampm (h / 12)) as (_ & _ & period & Hper & _);
    [cbn; lia | congruence |].
  unfold read in Hhour, Hper; cbn [fst snd table_data] in Hhour, Hper.
  destruct (minute_phrase_cases m Hm) as (Htens & Hteen & Hother & Hexcl & _).
  cbv zeta in Htens, Hteen, Hother, Hexcl.
  assert (Hmin : exists minutes,
             minute_phrase m = map (fun n => Some (Str n)) minutes /\
             (m mod 10 = 0 ->
              exists tens, minutes = [tens] /\
                           pgm_read_word mTens (m / 10) = Some (Str tens)) /\
             (11 <= m <= 19 ->
              exists teen, minutes = [teen] /\
                           pgm_read_word mTeens (m - 11) = Some (Str teen)) /\
             (m mod 10 <> 0 -> ~ 11 <= m <= 19 ->
              exists prefix ones,
                minutes = [prefix; ones] /\
                pgm_read_word mTenX (m / 10) = Some (Str prefix) /\
                pgm_read_word mins (m mod 10 - 1) = Some (Str ones))).
  { destruct (Z.eq_dec (m mod 10) 0) as [E0 | E0].
    - destruct (Htens E0) as (tens & Emin & Er). exists [tens].
      split; [exact Emin|]. split; [eauto|]. split; intros; lia.
    - destruct (Z_le_dec 11 m) as [H11 | H11];
        [destruct (Z_le_dec m 19) as [H19 | H19]|].
      + destruct (Hteen (conj H11 H19)) as (teen & Emin & Er). exists [teen].
        split; [exact Emin|]. split; [intros; lia|]. split; [eauto | intros; lia].
      + destruct (Hother E0) as (prefix & ones & Emin & Er); [lia|].
        exists [prefix; ones].
        split; [exact Emin|]. split; [intros; lia|]. split; [intros; lia | eauto].
      + destruct (Hother E0) as (prefix & ones & Emin & Er); [lia|].
        exists [prefix; ones].
        split; [exact Emin|]. split; [intros; lia|]. split; [intros; lia | eauto]. }
  destruct Hmin as (minutes & Emin & Hb1 & Hb2 & Hb3).
  assert (Ephrase : phrase h m =
                    map (fun n => Some (Str n)) (annc :: hour :: minutes ++ [period])).
  { rewrite (phrase_closed h m Hh), Hhour, Hper, Emin.
    cbn [map]. rewrite map_app. reflexivity. }
  exists st', hour, period, minutes.
  split; [exact Eloop|]. split.
  { rewrite Eop, Ephrase, names_files. cbn [map]. rewrite map_app. reflexivity. }
  split; [exact Hhour|]. split; [exact Hper|]. split; [exact Emin|].
  split; [exact Hb1|]. split; [exact Hb2|]. split; [exact Hb3|].
  split; [lia|].
  assert (Hfix : forall l, minute_phrase m = map (fun n => Some (Str n)) l ->
                           minutes = l).
  { intros l El. rewrite Emin in El. clear - El. revert l El.
    induction minutes as [|a minutes IH]; intros [|b l] El; try discriminate;
      [reflexivity|]. cbn in El. injection El as -> El. f_equal. now apply IH. }
  assert (Hcase : forall h0 m0 hr mins pr,
             pgm_read_word hours (h0 mod 12) = Some (Str hr) ->
             minute_phrase m0 = map (fun n => Some (Str n)) mins ->
             pgm_read_word ampm (h0 / 12) = Some (Str pr) ->
             h = h0 -> m = m0 -> hour = hr /\ minutes = mins /\ period = pr).
  { intros h0 m0 hr mins pr E1 E2 E3 Eh Em. subst h0 m0.
    split; [congruence|]. split; [now apply Hfix | congruence]. }
  split; [apply (Hcase 23 45 h11 [m4x; m5] pm); reflexivity|].
  split; [apply (Hcase 0 0 h12 [m00] am); reflexivity|].
  split; [apply (Hcase 13 5 h01 [m0x; m5] pm); reflexivity|].
  apply (Hcase 0 30 h12 [m30] am); reflexivity.
Qed.

(** C5 (as amended): the mouth LED pin is put in the high-impedance
    (input) state once per announcement, by the one [pinMode] that [loop]
    performs after the last clip of the phrase (and likewise once after the
    startup clip at the end of [setup]), whatever way out each [playfile]
    call took.  A single [playfile] call performs no [pinMode]: it leaves
    the pin driven at the last brightness it wrote, and as it found it
    when it wrote none. *)
Theorem mouth_off_after_announcement (h m now : Z) (st : sketch) :
  0 <= h < 24 -> 0 <= m < 60 -> filename_ok (filename st) ->
  fst (poll true now (debounceTime st)) = true ->
  (exists st' tr,
      loop true now h m st = Some (tt, st') /\
      trace st' = trace st ++ tr ++ [EvPinModeInput] /\
      ~ In EvPinModeInput tr /\
      opened tr = map file_of (phrase h m) /\
      LEDMOUTH st' = INPUT) /\
  (exists st' tr,
      setup_end st = Some (tt, st') /\
      trace st' = trace st ++ tr ++ [EvPinModeInput] /\
      ~ In EvPinModeInput tr /\
      opened tr = ["boot.WAV"%string] /\
      LEDMOUTH st' = INPUT) /\
  (forall name,
      short_name name ->
      exists st' tr,
        playfile name st = Some (tt, st') /\
        trace st' = trace st ++ tr /\
        ~ In EvPinModeInput tr /\
        LEDMOUTH st' = after_writes (LEDMOUTH st) (written tr) /\
        (written tr = [] -> LEDMOUTH st' = LEDMOUTH st) /\
        (written tr <> [] -> LEDMOUTH st' = PWM (last (written tr) 0))).
Proof.
  intros Hh Hm Hbuf Hedge. split; [|split].
  - destruct (loop_announces h m now st Hh Hm Hbuf Hedge)
      as (st' & tr & Eloop & Etr & Hno & Eop & _ & Hoff & _).
    exists st', tr. auto.
  - assert (Hboot : short_name boot) by (apply clip_name_short; cbn; tauto).
    destruct (playfile_trace boot st Hbuf Hboot)
      as (st1 & tr & Eplay & Etr & Eop & Hno & _).
    eexists. exists (EvOpen "boot.WAV" :: tr). unfold setup_end, bind.
    rewrite Eplay. unfold pinMode_LEDMOUTH_INPUT. split; [reflexivity|].
    cbn [LEDMOUTH filename debounceTime trace world].
    split; [rewrite Etr, <- app_assoc; reflexivity|].
    split; [|split; [cbn [opened]; now rewrite Eop | reflexivity]].
    cbn [In]. intros [E | Hin]; [discriminate | now apply Hno].
  - intros name Hname.
    destruct (playfile_trace name st Hbuf Hname)
      as (st' & tr & Eplay & Etr & _ & Hno & Hpin & _).
    exists st', (EvOpen (name ++ ".WAV")%string :: tr).
    split; [exact Eplay|]. split; [exact Etr|]. split.
    + cbn [In]. intros [E | Hin]; [discriminate | now apply Hno].
    + cbn [written]. split; [exact Hpin|].
      destruct (after_writes_cases (LEDMOUTH st) (written tr)) as [H0 H1].
      split; intros Hw; rewrite Hpin; auto.
Qed.

Lemma loops_app (ps qs : list (bool * Z * Z * Z)) (st : sketch) :
  loops (ps ++ qs) st =
    match loops ps st with
    | Some (_, st1) => loops qs st1
    | None => None
    end.
Proof.
  revert st. induction ps as [|[[[pressed now] h] m] ps IH]; intros st.
  - reflexivity.
  - cbn [app loops]. unfold bind.
    destruct (loop pressed now h m st) as [[[] st1]|]; [apply IH | reflexivity].
Qed.

(** A pass of [loop] that does not start the announcement changes nothing
    but the deadline. *)
Lemma loop_idle (pressed : bool) (now h m : Z) (st : sketch) :
  fst (poll pressed now (debounceTime st)) = false ->
  loop pressed now h m st =
    Some (tt, {| LEDMOUTH := LEDMOUTH st; filename := filename st;
                 debounceTime := snd (poll pressed now (debounceTime st));
                 trace := trace st; world := world st |}).
Proof. intros Hedge. rewrite loop_poll, Hedge. reflexivity. Qed.

(** Any sequence of passes whose clock readings are times of day whenever
    the button reads pressed. *)
Lemma loops_trace (ps : list (bool * Z * Z * Z)) (st : sketch) :
  Forall (fun p => fst (fst (fst p)) = false \/ clock_ok p) ps ->
  filename_ok (filename st) ->
  exists st',
    loops ps st = Some (tt, st') /\
    filename_ok (filename st') /\
    debounceTime st' = snd (polls (map (fun p => fst (fst p)) ps) (debounceTime st)) /\
    opened (trace st') = opened (trace st) ++ run_files ps (debounceTime st).
Proof.
  intros Hps. revert st.
  induction Hps as [|[[[pressed now] h] m] ps Hp _ IH]; intros st Hbuf.
  - exists st. cbn. rewrite app_nil_r. auto.
  - cbn [fst snd] in Hp. cbn [loops map polls run_files fst snd]. unfold bind.
    destruct (poll pressed now (debounceTime st)) as [edge d] eqn:Epoll.
    assert (Hedge : fst (poll pressed now (debounceTime st)) = edge)
      by now rewrite Epoll.
    assert (Hd : snd (poll pressed now (debounceTime st)) = d)
      by now rewrite Epoll.
    destruct edge.
    + assert (Hpressed : pressed = true).
      { revert Hedge. unfold poll. destruct pressed; [reflexivity | discriminate]. }
      subst pressed. destruct Hp as [Hp | [Hh Hm]]; [discriminate|].
      cbn [fst snd] in Hh, Hm.
      destruct (loop_announces h m now st Hh Hm Hbuf Hedge)
        as (st1 & tr & Eloop & _ & _ & _ & Eop & _ & Hbuf1 & Ed).
      assert (Ed' : debounceTime st1 = d).
      { rewrite Ed, <- Hd. unfold poll. now destruct (0 <=? _). }
      destruct (IH st1 Hbuf1) as (st2 & Eloops & Hbuf2 & Ed2 & Eop2).
      exists st2. rewrite Eloop, Eloops. split; [reflexivity|].
      split; [exact Hbuf2|]. rewrite Ed' in Ed2, Eop2.
      destruct (polls _ d) as [es d']. cbn [snd] in *.
      split; [exact Ed2|]. rewrite Eop2, Eop, <- app_assoc. reflexivity.
    + rewrite (loop_idle pressed now h m st Hedge), Hd.
      set (st1 := {| LEDMOUTH := _; filename := _; debounceTime := d;
                     trace := _; world := _ |}).
      destruct (IH st1 Hbuf) as (st2 & Eloops & Hbuf2 & Ed2 & Eop2).
      exists st2. rewrite Eloops. split; [reflexivity|]. split; [exact Hbuf2|].
      cbn [debounceTime trace st1] in Ed2, Eop2.
      destruct (polls _ d) as [es d']. cbn [snd app] in *. auto.
Qed.

(** C2 (as amended): [loop] starts the announcement in exactly those
    passes in which the button reads pressed and the time has reached the
    deadline.  A pressed pass leaves the deadline as it is, so while the
    button is held every pass from the deadline on (for 2^31 ms) plays the
    whole phrase again, not only the first one; a pressed pass before the
    deadline does nothing at all; a pass with the button released plays
    nothing and only re-arms the deadline to 15 ms after the current
    time. *)
Theorem held_press_retriggers (st : sketch) (passes : list (Z * Z * Z)) :
  0 <= debounceTime st < 4294967296 -> filename_ok (filename st) ->
  Forall (fun p => debounceTime st <= fst (fst p) < debounceTime st + 2147483648 /\
                   0 <= snd (fst p) < 24 /\ 0 <= snd p < 60) passes ->
  (exists st',
      loops (map (fun p => (true, uint32 (fst (fst p)), snd (fst p), snd p)) passes) st
      = Some (tt, st') /\
      debounceTime st' = debounceTime st /\
      opened (trace st') =
        opened (trace st) ++
        flat_map (fun p => map file_of (phrase (snd (fst p)) (snd p))) passes) /\
  polls (map (fun p => (true, uint32 (fst (fst p)))) passes) (debounceTime st)
  = (map (fun _ => true) passes, debounceTime st) /\
  (forall t h m,
      debounceTime st - 2147483648 <= t < debounceTime st ->
      loop true (uint32 t) h m st = Some (tt, st)) /\
  (forall now h m,
      loop false now h m st =
        Some (tt, {| LEDMOUTH := LEDMOUTH st; filename := filename st;
                     debounceTime := uint32 (now + 15);
                     trace := trace st; world := world st |})).
Proof.
  intros Hd Hbuf Hps. split; [|split; [|split]].
  - remember (debounceTime st) as d eqn:Ed. revert st Ed Hbuf.
    induction Hps as [|[[t h] m] ps (Ht & Hh & Hm) _ IH]; intros st Ed Hbuf.
    + exists st. cbn. rewrite app_nil_r. auto.
    + cbn [fst snd] in Ht, Hh, Hm. cbn [map loops flat_map fst snd]. unfold bind.
      assert (Hedge : fst (poll true (uint32 t) (debounceTime st)) = true).
      { unfold poll. rewrite <- Ed, (deadline_met d t Hd Ht). reflexivity. }
      destruct (loop_announces h m (uint32 t) st Hh Hm Hbuf Hedge)
        as (st1 & tr & Eloop & _ & _ & _ & Eop & _ & Hbuf1 & Ed1).
      destruct (IH st1) as (st2 & Eloops & Ed2 & Eop2); [congruence | exact Hbuf1 |].
      exists st2. rewrite Eloop, Eloops. split; [reflexivity|].
      split; [exact Ed2|]. rewrite Eop2, Eop, <- app_assoc. reflexivity.
  - clear Hbuf. induction Hps as [|[[t h] m] ps (Ht & _) _ IH]; [reflexivity|].
    cbn [fst snd] in Ht. cbn [map polls fst snd]. unfold poll at 1.
    rewrite (deadline_met _ t Hd Ht), IH. reflexivity.
  - intros t h m Ht. unfold loop, bind, get_debounceTime.
    now rewrite (deadline_pending _ t Hd Ht).
  - reflexivity.
Qed.

(** X9: whatever passes came before, once a pass of [loop] has read the
    button released at time [t_r], and whatever passes with the button
    pressed follow, a later pass that reads it pressed at time [t] plays
    the phrase exactly when at least 15 ms have passed since [t_r], and
    otherwise changes nothing; the wrap-around of [millis()] does not
    matter. *)
Theorem debounce_after_release
        (pre : list (bool * Z * Z * Z)) (held : list (Z * Z * Z))
        (st : sketch) (t_r t h0 m0 h m : Z) :
  filename_ok (filename st) ->
  Forall (fun p => fst (fst (fst p)) = false \/ clock_ok p) pre ->
  Forall (fun p => 0 <= snd (fst p) < 24 /\ 0 <= snd p < 60) held ->
  0 <= h < 24 -> 0 <= m < 60 ->
  t_r <= t < t_r + 15 + 2147483648 ->
  let before :=
    pre ++ (false, uint32 t_r, h0, m0)
        :: map (fun p => (true, fst (fst p), snd (fst p), snd p)) held in
  exists st1 st2,
    loops before st = Some (tt, st1) /\
    debounceTime st1 = uint32 (t_r + 15) /\
    loop true (uint32 t) h m st1 = Some (tt, st2) /\
    debounceTime st2 = uint32 (t_r + 15) /\
    (t_r + 15 <= t ->
     opened (trace st2) = opened (trace st1) ++ map file_of (phrase h m)) /\
    (t < t_r + 15 -> st2 = st1).
Proof.
  intros Hbuf Hpre Hheld Hh Hm Ht before.
  assert (Hbefore : Forall (fun p => fst (fst (fst p)) = false \/ clock_ok p) before).
  { subst before. apply Forall_app. split; [exact Hpre|].
    constructor; [now left|]. apply Forall_map.
    eapply Forall_impl; [|exact Hheld]. intros [[now h1] m1] Hc. right. exact Hc. }
  destruct (loops_trace before st Hbefore Hbuf) as (st1 & Eloops & Hbuf1 & Ed & _).
  assert (Ed1 : debounceTime st1 = uint32 (t_r + 15)).
  { rewrite Ed. subst before. rewrite map_app, polls_app. cbn [map polls fst snd].
    unfold poll at 1. rewrite map_map. cbn [fst snd].
    destruct (polls (map _ held) _) as [es d'] eqn:E. cbn [snd].
    pose proof (polls_pressed_deadline (map (fun p => fst (fst p)) held)
                  (uint32 (uint32 t_r + 15))) as H.
    rewrite map_map in H. cbn [fst snd] in H.
    rewrite E in H. cbn in H. subst d'. unfold uint32. lia. }
  assert (Etest : (0 <=? int32 (uint32 (uint32 t - uint32 (t_r + 15))))
                  = (t_r + 15 <=? t)).
  { destruct (Z.leb_spec (t_r + 15) t);
      [apply Z.leb_le | apply Z.leb_gt]; unfold int32, uint32; lia. }
  assert (Hedge : fst (poll true (uint32 t) (debounceTime st1)) = (t_r + 15 <=? t)).
  { unfold poll. rewrite Ed1, Etest. now destruct (t_r + 15 <=? t). }
  destruct (Z.leb_spec (t_r + 15) t) as [Hlate | Hearly].
  - destruct (loop_announces h m (uint32 t) st1 Hh Hm Hbuf1 Hedge)
      as (st2 & tr & Eloop & _ & _ & _ & Eop & _ & _ & Ed2).
    exists st1, st2. split; [exact Eloops|]. split; [exact Ed1|].
    split; [exact Eloop|]. split; [congruence|]. split; [auto | lia].
  - exists st1, st1. split; [exact Eloops|]. split; [exact Ed1|].
    split; [|split; [exact Ed1 | split; [lia | reflexivity]]].
    unfold loop, bind, get_debounceTime. rewrite Ed1, Etest.
    replace (t_r + 15 <=? t) with false by (symmetry; apply Z.leb_gt; lia).
    reflexivity.
Qed.

(** [playfile] on a file that opens and is a valid WAV: the playback is
    started and the values written are those that the run over the samples
    lists. *)
Lemma playfile_valid (name : string) (st : sketch) (w1 w2 w3 : World)
      (samples : list Z) :
  filename_ok (filename st) -> short_name name ->
  file_open (name ++ ".WAV")%string (world st) = (true, w1) ->
  wave_create w1 = (true, w2) ->
  wave_play w2 = (samples, w3) ->
  playfile name st =
    Some (tt, {| LEDMOUTH := after_writes (LEDMOUTH st)
                               (snd (Mouth.run samples Mouth.init));
                 filename := memcpy_P (filename st) (8 - strlen_P name)
                                      name (strlen_P name);
                 debounceTime := debounceTime st;
                 trace := trace st ++
                          EvOpen (name ++ ".WAV")%string :: EvCreate :: EvPlay
                            :: map EvAnalogWrite (snd (Mouth.run samples Mouth.init));
                 world := w3 |}).
Proof.
  intros Hbuf Hname Eopen Ecreate Eplay.
  rewrite (playfile_unfold name st Hbuf Hname), Eopen, Ecreate, Eplay.
  reflexivity.
Qed.

Lemma mouth_run_snoc (pre : list Z) (s : Z) (w : Mouth.window) :
  snd (Mouth.run (pre ++ [s]) w) =
    snd (Mouth.run pre w) ++
    match snd (Mouth.step (fst (Mouth.run pre w)) s) with
    | Some b => [b]
    | None => []
    end.
Proof.
  rewrite mouth_run_app. cbn [snd]. rewrite mouth_run_cons. cbn [snd Mouth.run].
  destruct (snd (Mouth.step _ s)); reflexivity.
Qed.

(** C6: during playback, after a window of exactly 256 samples
    [s0 :: rest] (starting at a multiple of 256 samples), whose minimum
    and maximum are then in [lo] and [hi], the next iteration of the
    sample loop calls [analogWrite] on the mouth LED with
    [clamp((hi - lo) * 4, 0, 255)], which leaves the pin driven at that
    brightness, and resets [lo] and [hi] to the current sample; an
    iteration that is not at a window boundary writes nothing, changes
    nothing outside the locals, and only folds the sample into [lo]/[hi]
    by min/max.  The write is the last thing a [playfile] call does when
    the playback ends with that iteration. *)
Theorem window_brightness (pre : list Z) (s : Z) (st : sketch) :
  Forall is_int8 pre ->
  let w := fst (Mouth.run pre Mouth.init) in
  exists st1,
    mouth_loop pre Mouth.init st = Some (tt, st1) /\
    (Z.of_nat (List.length pre) mod 256 <> 0 ->
     mouth_loop (pre ++ [s]) Mouth.init st = Some (tt, st1) /\
     snd (Mouth.step w s) = None /\
     Mouth.lo (fst (Mouth.step w s)) = Z.min (Mouth.lo w) s /\
     Mouth.hi (fst (Mouth.step w s)) = Z.max (Mouth.hi w) s) /\
    (forall front s0 rest,
        pre = front ++ s0 :: rest ->
        Z.of_nat (List.length front) mod 256 = 0 ->
        List.length rest = 255%nat ->
        let b := Mouth.clamp
                   ((Mouth.maximum s0 rest - Mouth.minimum s0 rest) * 4) 0 255 in
        Mouth.lo w = Mouth.minimum s0 rest /\
        Mouth.hi w = Mouth.maximum s0 rest /\
        mouth_loop (pre ++ [s]) Mouth.init st =
          Some (tt, {| LEDMOUTH := PWM b; filename := filename st1;
                       debounceTime := debounceTime st1;
                       trace := trace st1 ++ [EvAnalogWrite b];
                       world := world st1 |}) /\
        Mouth.lo (fst (Mouth.step w s)) = s /\
        Mouth.hi (fst (Mouth.step w s)) = s /\
        (forall name w1 w2 w3,
            filename_ok (filename st) -> short_name name ->
            file_open (name ++ ".WAV")%string (world st) = (true, w1) ->
            wave_create w1 = (true, w2) ->
            wave_play w2 = (pre ++ [s], w3) ->
            exists st' tr,
              playfile name st = Some (tt, st') /\
              trace st' = trace st ++ tr ++ [EvAnalogWrite b] /\
              LEDMOUTH st' = PWM b)).
Proof.
  intros Hpre w.
  destruct (window_step pre s Hpre) as [Hquiet Hflush]. fold w in Hquiet, Hflush.
  eexists. split; [apply mouth_loop_spec|].
  cbn [LEDMOUTH filename debounceTime trace world]. split.
  - intros Hmod. destruct (Hquiet Hmod) as (Enone & Elo & Ehi).
    split; [|auto]. rewrite mouth_loop_spec, mouth_run_snoc. fold w.
    rewrite Enone, app_nil_r. reflexivity.
  - intros front s0 rest Epre Hfront Hrest.
    set (b := Mouth.clamp ((Mouth.maximum s0 rest - Mouth.minimum s0 rest) * 4) 0 255).
    destruct (Hflush front s0 rest Epre Hfront Hrest) as (Elo & Ehi & Eb & Es1 & Es2).
    rewrite Elo, Ehi in Eb. fold b in Eb.
    split; [exact Elo|]. split; [exact Ehi|].
    assert (Erun : snd (Mouth.run (pre ++ [s]) Mouth.init)
                   = snd (Mouth.run pre Mouth.init) ++ [b]).
    { rewrite mouth_run_snoc. fold w. now rewrite Eb. }
    split; [|split; [exact Es1 | split; [exact Es2|]]].
    + rewrite mouth_loop_spec, Erun, after_writes_snoc, map_app, app_assoc.
      reflexivity.
    + intros name w1 w2 w3 Hbuf Hname Eopen Ecreate Eplay.
      rewrite (playfile_valid name st w1 w2 w3 _ Hbuf Hname Eopen Ecreate Eplay).
      rewrite Erun, after_writes_snoc, map_app.
      eexists. exists (EvOpen (name ++ ".WAV")%string :: EvCreate :: EvPlay
                         :: map EvAnalogWrite (snd (Mouth.run pre Mouth.init))).
      split; [reflexivity|]. cbn [LEDMOUTH filename debounceTime trace world].
      split; reflexivity.
Qed.

(** X4: a [playfile] call whose file opens and is a valid WAV, and whose
    polling loop reads [n] samples, calls [analogWrite] on the mouth LED
    [ceil(n / 256)] times; the first write of every playback is
    brightness 0, and a playback of 1 to 256 samples writes only that 0
    and returns with the pin driven at 0. *)
Theorem mouth_write_count (name : string) (st : sketch) (w1 w2 w3 : World)
        (samples : list Z) :
  filename_ok (filename st) -> short_name name ->
  file_open (name ++ ".WAV")%string (world st) = (true, w1) ->
  wave_create w1 = (true, w2) ->
  wave_play w2 = (samples, w3) ->
  exists st' ws,
    playfile name st = Some (tt, st') /\
    trace st' = trace st ++ EvOpen (name ++ ".WAV")%string :: EvCreate :: EvPlay
                  :: map EvAnalogWrite ws /\
    List.length ws = Z.to_nat ((Z.of_nat (List.length samples) + 255) / 256) /\
    (samples <> [] -> hd_error ws = Some 0) /\
    ((0 < List.length samples <= 256)%nat -> ws = [0] /\ LEDMOUTH st' = PWM 0).
Proof.
  intros Hbuf Hname Eopen Ecreate Eplay.
  rewrite (playfile_valid name st w1 w2 w3 _ Hbuf Hname Eopen Ecreate Eplay).
  destruct (mouth_run_writes samples) as (Hcount & Hhd & Hshort).
  cbv zeta in Hcount, Hhd, Hshort.
  eexists. exists (snd (Mouth.run samples Mouth.init)).
  split; [reflexivity|]. cbn [LEDMOUTH filename debounceTime trace world].
  split; [reflexivity|]. split; [exact Hcount|]. split; [exact Hhd|].
  intros Hlen. rewrite (Hshort Hlen). split; reflexivity.
Qed.

(** X5: in a [playfile] call whose file opens and is a valid WAV, the
    [analogWrite] number [k + 1] (the initial 0 being number 0) has the
    value [clamp((max - min) * 4, 0, 255)] for the maximum and minimum of
    the samples [256 k .. 256 k + 255], provided sample [256 (k + 1)] is
    read. *)
Theorem mouth_write_nth (name : string) (st : sketch) (w1 w2 w3 : World)
        (samples : list Z) (k : nat) (s0 : Z) (rest : list Z) :
  filename_ok (filename st) -> short_name name ->
  file_open (name ++ ".WAV")%string (world st) = (true, w1) ->
  wave_create w1 = (true, w2) ->
  wave_play w2 = (samples, w3) ->
  Forall is_int8 samples ->
  (256 * (k + 1) < List.length samples)%nat ->
  firstn 256 (skipn (256 * k) samples) = s0 :: rest ->
  exists st' tr,
    playfile name st = Some (tt, st') /\
    trace st' = trace st ++ tr /\
    nth_error (written tr) (S k) =
      Some (Mouth.clamp ((Mouth.maximum s0 rest - Mouth.minimum s0 rest) * 4) 0 255).
Proof.
  intros Hbuf Hname Eopen Ecreate Eplay Hs Hlen Hwin.
  rewrite (playfile_valid name st w1 w2 w3 _ Hbuf Hname Eopen Ecreate Eplay).
  eexists. eexists. split; [reflexivity|].
  cbn [LEDMOUTH filename debounceTime trace world]. split; [reflexivity|].
  cbn [written]. rewrite written_writes.
  exact (mouth_run_nth samples k s0 rest Hs Hlen Hwin).
Qed.

(** X6: when the playback of a [playfile] call ends with the iteration
    that follows a complete window of 256 samples, the last thing the call
    does is write a brightness to the mouth LED, which stays driven at it;
    that brightness is 0 exactly when all samples of the window are equal,
    and 255 exactly when two samples of the window are at least 64 apart;
    the sample read in that iteration plays no part. *)
Theorem mouth_window_levels (name : string) (st : sketch) (w1 w2 w3 : World)
        (front rest : list Z) (s0 s : Z) :
  filename_ok (filename st) -> short_name name ->
  file_open (name ++ ".WAV")%string (world st) = (true, w1) ->
  wave_create w1 = (true, w2) ->
  wave_play w2 = ((front ++ s0 :: rest) ++ [s], w3) ->
  Forall is_int8 (front ++ s0 :: rest) ->
  Z.of_nat (List.length front) mod 256 = 0 ->
  List.length rest = 255%nat ->
  exists st' tr b,
    playfile name st = Some (tt, st') /\
    trace st' = trace st ++ tr ++ [EvAnalogWrite b] /\
    LEDMOUTH st' = PWM b /\
    (b = 0 <-> Forall (fun x => x = s0) rest) /\
    (b = 255 <-> exists x y, In x (s0 :: rest) /\ In y (s0 :: rest) /\ 64 <= y - x).
Proof.
  intros Hbuf Hname Eopen Ecreate Eplay Hall Hfront Hrest.
  rewrite (playfile_valid name st w1 w2 w3 _ Hbuf Hname Eopen Ecreate Eplay).
  destruct (mouth_window_level front rest s0 s Hall Hfront Hrest)
    as (b & Eb & Hzero & Hfull).
  rewrite mouth_run_snoc, Eb, after_writes_snoc, map_app.
  eexists. exists (EvOpen (name ++ ".WAV")%string :: EvCreate :: EvPlay
                     :: map EvAnalogWrite
                          (snd (Mouth.run (front ++ s0 :: rest) Mouth.init))), b.
  split; [reflexivity|]. cbn [LEDMOUTH filename debounceTime trace world].
  split; [reflexivity|]. split; [reflexivity|]. split; assumption.
Qed.

(** X14: when the file opens and [wave.create] accepts it, [playfile]
    starts the playback, prints nothing, and its [analogWrite] calls are
    exactly the envelope values of the samples read, each within 0..255;
    it returns with the mouth pin driven at the last value written, and
    with the pin as it was if no sample was read. *)
Theorem playfile_played (name : string) (st : sketch) (w1 w2 w3 : World)
        (samples : list Z) :
  filename_ok (filename st) -> short_name name ->
  file_open (name ++ ".WAV")%string (world st) = (true, w1) ->
  wave_create w1 = (true, w2) ->
  wave_play w2 = (samples, w3) ->
  Forall is_int8 samples ->
  let ws := snd (Mouth.run samples Mouth.init) in
  exists st',
    playfile name st = Some (tt, st') /\
    trace st' =
      trace st ++ EvOpen (name ++ ".WAV")%string :: EvCreate :: EvPlay
        :: map EvAnalogWrite ws /\
    Forall (fun b => 0 <= b <= 255) ws /\
    (samples <> [] -> ws <> [] /\ LEDMOUTH st' = PWM (last ws 0) /\
                      0 <= last ws 0 <= 255) /\
    (samples = [] -> ws = [] /\ LEDMOUTH st' = LEDMOUTH st) /\
    world st' = w3.
Proof.
  intros Hbuf Hname Eopen Ecreate Eplay Hs ws.
  rewrite (playfile_valid name st w1 w2 w3 _ Hbuf Hname Eopen Ecreate Eplay).
  destruct (mouth_run_inv samples Mouth.init mouth_init_inv Hs) as [_ Hb].
  fold ws in Hb |- *.
  eexists. split; [reflexivity|].
  cbn [LEDMOUTH filename debounceTime trace world].
  split; [reflexivity|]. split; [exact Hb|]. split; [|split; [|reflexivity]].
  - intros Hne.
    assert (Hwrites : ws <> []).
    { subst ws. destruct samples as [|s rest]; [congruence|].
      rewrite mouth_run_cons. cbn. discriminate. }
    destruct (after_writes_cases (LEDMOUTH st) ws) as [_ Hlast].
    split; [exact Hwrites|]. split; [exact (Hlast Hwrites)|].
    rewrite Forall_forall in Hb. apply Hb.
    destruct (exists_last Hwrites) as (l & b & E). rewrite E, last_last.
    apply in_or_app. right. now left.
  - intros ->. split; reflexivity.
Qed.

(** X1: for an hour [h] in 0..11, the announcements that [loop] plays at
    [h] and at [h + 12] open the same files (announcement, the hour clip
    [hours[h]], the minute clips) but for the last one, am.WAV for [h] and
    pm.WAV for [h + 12]; midnight and noon say "twelve" (h12). *)
Theorem phrase_twelve_hour (h m now : Z) (st : sketch) :
  0 <= h < 12 -> 0 <= m < 60 -> filename_ok (filename st) ->
  fst (poll true now (debounceTime st)) = true ->
  exists st1 st2 hour,
    pgm_read_word hours h = Some (Str hour) /\
    loop true now h m st = Some (tt, st1) /\
    loop true now (h + 12) m st = Some (tt, st2) /\
    opened (trace st1) =
      opened (trace st) ++
      "annc.WAV"%string :: (hour ++ ".WAV")%string
        :: map file_of (minute_phrase m) ++ ["am.WAV"%string] /\
    opened (trace st2) =
      opened (trace st) ++
      "annc.WAV"%string :: (hour ++ ".WAV")%string
        :: map file_of (minute_phrase m) ++ ["pm.WAV"%string] /\
    (h = 0 -> hour = h12).
Proof.
  intros Hh Hm Hbuf Hedge.
  destruct (phrase_same_hour h m Hh) as (hour & Hr & Eam & Epm & H12).
  destruct (loop_announces h m now st) as (st1 & _ & E1 & _ & _ & _ & Eop1 & _);
    [lia | exact Hm | exact Hbuf | exact Hedge |].
  destruct (loop_announces (h + 12) m now st) as (st2 & _ & E2 & _ & _ & _ & Eop2 & _);
    [lia | exact Hm | exact Hbuf | exact Hedge |].
  exists st1, st2, hour. rewrite Eam in Eop1. rewrite Epm in Eop2.
  cbn [map file_of] in Eop1, Eop2. rewrite map_app in Eop1, Eop2.
  repeat split; assumption.
Qed.

(** X2: two different times of day are never announced alike: the passes
    of [loop] that announce them open different sequences of files. *)
Theorem phrase_injective (h m h' m' now now' : Z) (st : sketch) :
  0 <= h < 24 -> 0 <= m < 60 -> 0 <= h' < 24 -> 0 <= m' < 60 ->
  filename_ok (filename st) ->
  fst (poll true now (debounceTime st)) = true ->
  fst (poll true now' (debounceTime st)) = true ->
  (h, m) <> (h', m') ->
  exists st1 st2,
    loop true now h m st = Some (tt, st1) /\
    loop true now' h' m' st = Some (tt, st2) /\
    opened (trace st1) <> opened (trace st2).
Proof.
  intros Hh Hm Hh' Hm' Hbuf Hedge Hedge' Hne.
  destruct (loop_announces h m now st Hh Hm Hbuf Hedge)
    as (st1 & _ & E1 & _ & _ & _ & Eop1 & _).
  destruct (loop_announces h' m' now' st Hh' Hm' Hbuf Hedge')
    as (st2 & _ & E2 & _ & _ & _ & Eop2 & _).
  exists st1, st2. split; [exact E1|]. split; [exact E2|].
  rewrite Eop1, Eop2. intros E. apply app_inv_head in E.
  apply file_of_inj in E; [|now apply phrase_clips|now apply phrase_clips].
  exact (phrase_inj h m h' m' Hh Hm Hh' Hm' Hne E).
Qed.

(** X3: every clip of the tables is needed: for each name other than the
    startup sound there is a time of day at which the announcing pass of
    [loop] opens its file; the file of the startup sound is opened in no
    announcement. *)
Theorem every_clip_announced (name : string) (now : Z) (st : sketch) :
  In name clip_names -> filename_ok (filename st) ->
  fst (poll true now (debounceTime st)) = true ->
  (name <> boot ->
   exists h m st' files,
     0 <= h < 24 /\ 0 <= m < 60 /\
     loop true now h m st = Some (tt, st') /\
     opened (trace st') = opened (trace st) ++ files /\
     In (name ++ ".WAV")%string files) /\
  (forall h m,
      0 <= h < 24 -> 0 <= m < 60 ->
      exists st' files,
        loop true now h m st = Some (tt, st') /\
        opened (trace st') = opened (trace st) ++ files /\
        ~ In "boot.WAV"%string files).
Proof.
  intros Hin Hbuf Hedge. destruct (clip_announced name Hin) as [Hsome _]. split.
  - intros Hboot. destruct (Hsome Hboot) as (h & m & Hh & Hm & Hplayed).
    destruct (loop_announces h m now st Hh Hm Hbuf Hedge)
      as (st' & _ & E & _ & _ & _ & Eop & _).
    exists h, m, st', (map file_of (phrase h m)).
    repeat split; try assumption; try lia.
    apply in_map_iff. exists (Some (Str name)). split; [reflexivity | exact Hplayed].
  - intros h m Hh Hm.
    destruct (loop_announces h m now st Hh Hm Hbuf Hedge)
      as (st' & _ & E & _ & _ & _ & Eop & _).
    exists st', (map file_of (phrase h m)). split; [exact E|]. split; [exact Eop|].
    intros Hfile. apply in_map_iff in Hfile. destruct Hfile as (a & Ea & Ha).
    pose proof (phrase_clips h m Hh Hm) as Hclips. rewrite Forall_forall in Hclips.
    destruct (Hclips a Ha) as (n & -> & _). cbn [file_of] in Ea.
    apply (append_cancel_r n boot ".WAV") in Ea. subst n.
    destruct (clip_announced boot (or_introl eq_refl)) as [_ Hnone].
    exact (Hnone eq_refl h m Hh Hm Ha).
Qed.

End Playback.

(** ** These properties on the example cards *)

Lemma phrase_length_witness :
  exists st' files,
    loop true 20 13 5 example_start = Some (tt, st') /\
    opened (trace st') = opened (trace example_start) ++ files /\
    files = map file_of (phrase 13 5) /\
    Forall clip_file files /\
    (4 <= List.length files <= 5)%nat /\
    (List.length files = 4%nat <-> (5 mod 10 = 0 \/ 11 <= 5 <= 19)).
Proof.
  apply (phrase_length (W:=example_shield) 13 5 20 example_start);
    [lia | lia | split; reflexivity | reflexivity].
Defined.

(** C1 as stated fails: at 23:45 the announcing pass of [loop] plays five
    clips, more than four. *)
Lemma phrase_length_counterexample :
  0 <= 23 < 24 /\ 0 <= 45 < 60 /\
  phrase 23 45 =
    [Some (Str annc); Some (Str h11); Some (Str m4x); Some (Str m5);
     Some (Str pm)] /\
  option_map (fun r => opened (trace (snd r))) (loop true 20 23 45 example_start)
  = Some ["annc.WAV"; "h11.WAV"; "m4x.WAV"; "m5.WAV"; "pm.WAV"]%string /\
  ~ (2 <= List.length (phrase 23 45) <= 4)%nat.
Proof.
  split; [lia|]. split; [lia|]. split; [reflexivity|].
  split; [vm_compute; reflexivity|]. cbn. lia.
Qed.

Lemma held_press_retriggers_witness :
  (exists st',
      loops [(true, 15, 23, 45); (true, 4015, 0, 30)] example_start
      = Some (tt, st') /\
      debounceTime st' = 0 /\
      opened (trace st') =
        map file_of (phrase 23 45) ++ map file_of (phrase 0 30) ++ []) /\
  loop true 4294967291 23 45 example_start = Some (tt, example_start).
Proof.
  destruct (held_press_retriggers (W:=example_shield) example_start
              [(15, 23, 45); (4015, 0, 30)])
    as (Hheld & _ & Hearly & _).
  - cbn. lia.
  - split; reflexivity.
  - repeat constructor; cbn; lia.
  - split; [exact Hheld|]. apply (Hearly (-5) 23 45). cbn. lia.
Defined.

(** C2 as stated fails: the button is released at 0 ms, pressed at 5 ms
    and held; the pass of [loop] at 15 ms plays the announcement, and so
    do the passes at 4015 ms and 8015 ms with the button still held: the
    announcement clip is opened three times. *)
Lemma held_press_counterexample :
  let ps := [(false, 0); (true, 5); (true, 15); (true, 4015); (true, 8015)] in
  polls ps 0 = ([false; false; true; true; true], 15) /\
  edges (fst (polls ps 0)) = 3%nat /\
  edges (fst (polls ps 0)) <> 1%nat /\
  option_map
    (fun r => List.length (filter (String.eqb "annc.WAV") (opened (trace (snd r)))))
    (loops (map (fun p => (fst p, snd p, 23, 45)) ps) example_start)
  = Some 3%nat.
Proof.
  cbv zeta. split; [reflexivity|]. split; [reflexivity|].
  split; [discriminate | vm_compute; reflexivity].
Qed.

Lemma minute_phrase_branches_witness :
  (exists st',
      loop true 20 23 45 example_start = Some (tt, st') /\
      opened (trace st') =
        ["annc.WAV"; "h11.WAV"; "m4x.WAV"; "m5.WAV"; "pm.WAV"]%string) /\
  (exists st' tens,
      loop true 20 0 30 example_start = Some (tt, st') /\
      opened (trace st') = ["annc.WAV"; "h12.WAV"; tens ++ ".WAV"; "am.WAV"]%string /\
      pgm_read_word mTens 3 = Some (Str tens)) /\
  (exists st' teen,
      loop true 20 13 17 example_start = Some (tt, st') /\
      opened (trace st') = ["annc.WAV"; "h01.WAV"; teen ++ ".WAV"; "pm.WAV"]%string /\
      pgm_read_word mTeens 6 = Some (Str teen)).
Proof.
  assert (Hbuf : filename_ok (filename example_start)) by (split; reflexivity).
  split; [|split].
  - destruct (minute_phrase_branches (W:=example_shield) 23 45 20 example_start)
      as (st' & hour & period & minutes & Eloop & Eop & _ & _ & _ & _ & _ & _ & _
          & Hcase & _); [lia | lia | exact Hbuf | reflexivity |].
    destruct (Hcase eq_refl eq_refl) as (-> & -> & ->).
    exists st'. split; [exact Eloop | exact Eop].
  - destruct (minute_phrase_branches (W:=example_shield) 0 30 20 example_start)
      as (st' & hour & period & minutes & Eloop & Eop & Ehour & Eper & _ & Htens & _);
      [lia | lia | exact Hbuf | reflexivity |].
    destruct (Htens eq_refl) as (tens & -> & Er).
    vm_compute in Ehour, Eper. injection Ehour as <-. injection Eper as <-.
    exists st', tens. split; [exact Eloop|]. split; [exact Eop | exact Er].
  - destruct (minute_phrase_branches (W:=example_shield) 13 17 20 example_start)
      as (st' & hour & period & minutes & Eloop & Eop & Ehour & Eper & _ & _ & Hteen & _);
      [lia | lia | exact Hbuf | reflexivity |].
    destruct Hteen as (teen & -> & Er); [lia|].
    vm_compute in Ehour, Eper. injection Ehour as <-. injection Eper as <-.
    exists st', teen. split; [exact Eloop|]. split; [exact Eop | exact Er].
Defined.

Lemma mouth_off_after_announcement_witness :
  let st := example_start in
  (exists st' tr,
      loop true 20 23 45 st = Some (tt, st') /\
      trace st' = trace st ++ tr ++ [EvPinModeInput] /\
      ~ In EvPinModeInput tr /\
      opened tr = map file_of (phrase 23 45) /\
      LEDMOUTH st' = INPUT) /\
  (exists st' tr,
      setup_end st = Some (tt, st') /\
      trace st' = trace st ++ tr ++ [EvPinModeInput] /\
      ~ In EvPinModeInput tr /\
      opened tr = ["boot.WAV"%string] /\
      LEDMOUTH st' = INPUT) /\
  (exists st' tr,
      playfile annc st = Some (tt, st') /\
      trace st' = trace st ++ tr /\
      ~ In EvPinModeInput tr /\
      LEDMOUTH st' = after_writes (LEDMOUTH st) (written tr) /\
      (written tr = [] -> LEDMOUTH st' = LEDMOUTH st) /\
      (written tr <> [] -> LEDMOUTH st' = PWM (last (written tr) 0))).
Proof.
  intros st.
  destruct (mouth_off_after_announcement (W:=example_shield) 23 45 20 st)
    as (Hloop & Hsetup & Hplay);
    [lia | lia | split; reflexivity | reflexivity |].
  split; [exact Hloop|]. split; [exact Hsetup|].
  apply (Hplay annc). split; cbn; lia.
Defined.

Lemma window_brightness_witness :
  let pre := 3 :: [-7; 12] ++ repeat 5 253 in
  (exists st',
      playfile annc (constant_start (pre ++ [40])) = Some (tt, st') /\
      (exists tr, trace st' = [] ++ tr ++ [EvAnalogWrite 76]) /\
      LEDMOUTH st' = PWM 76) /\
  (exists st1,
      mouth_loop [3; -7] Mouth.init example_start = Some (tt, st1) /\
      mouth_loop ([3; -7] ++ [12]) Mouth.init example_start = Some (tt, st1)).
Proof.
  intros pre. split.
  - assert (Hpre : Forall is_int8 pre).
    { subst pre. constructor; [unfold is_int8; lia|].
      apply Forall_app. split; [repeat constructor; unfold is_int8; lia|].
      apply Forall_forall. intros x Hx. apply repeat_spec in Hx. subst x.
      unfold is_int8. lia. }
    destruct (window_brightness (W:=constant_shield (pre ++ [40])) pre 40
                (constant_start (pre ++ [40])) Hpre) as (st1 & _ & _ & Hflush).
    destruct (Hflush [] 3 ([-7; 12] ++ repeat 5 253) eq_refl eq_refl eq_refl)
      as (_ & _ & _ & _ & _ & Hplay).
    destruct (Hplay annc tt tt tt) as (st' & tr & E & Etr & Epin);
      [split; reflexivity | split; cbn; lia | reflexivity | reflexivity
      | reflexivity |].
    exists st'. split; [exact E|]. split; [exists tr; exact Etr | exact Epin].
  - assert (Hpre : Forall is_int8 [3; -7])
      by (repeat constructor; unfold is_int8; lia).
    destruct (window_brightness (W:=example_shield) [3; -7] 12 example_start Hpre)
      as (st1 & E1 & Hquiet & _).
    exists st1. split; [exact E1|]. apply Hquiet. cbn. lia.
Defined.

Lemma phrase_twelve_hour_witness :
  exists st1 st2 hour,
    pgm_read_word hours 0 = Some (Str hour) /\
    loop true 20 0 30 example_start = Some (tt, st1) /\
    loop true 20 (0 + 12) 30 example_start = Some (tt, st2) /\
    opened (trace st1) =
      opened (trace example_start) ++
      "annc.WAV"%string :: (hour ++ ".WAV")%string
        :: map file_of (minute_phrase 30) ++ ["am.WAV"%string] /\
    opened (trace st2) =
      opened (trace example_start) ++
      "annc.WAV"%string :: (hour ++ ".WAV")%string
        :: map file_of (minute_phrase 30) ++ ["pm.WAV"%string] /\
    (0 = 0 -> hour = h12).
Proof.
  apply (phrase_twelve_hour (W:=example_shield) 0 30 20 example_start);
    [lia | lia | split; reflexivity | reflexivity].
Defined.

Lemma phrase_injective_witness :
  exists st1 st2,
    loop true 20 13 5 example_start = Some (tt, st1) /\
    loop true 25 1 5 example_start = Some (tt, st2) /\
    opened (trace st1) <> opened (trace st2).
Proof.
  apply (phrase_injective (W:=example_shield) 13 5 1 5 20 25 example_start);
    try lia; try reflexivity; [split; reflexivity | intros [=]].
Defined.

Lemma every_clip_announced_witness :
  (exists h m st' files,
      0 <= h < 24 /\ 0 <= m < 60 /\
      loop true 20 h m example_start = Some (tt, st') /\
      opened (trace st') = opened (trace example_start) ++ files /\
      In (m19 ++ ".WAV")%string files) /\
  (exists st' files,
      loop true 20 23 45 example_start = Some (tt, st') /\
      opened (trace st') = opened (trace example_start) ++ files /\
      ~ In "boot.WAV"%string files).
Proof.
  destruct (every_clip_announced (W:=example_shield) m19 20 example_start)
    as [Hsome Hboot];
    [unfold clip_names; cbn; tauto | split; reflexivity | reflexivity |].
  split; [apply Hsome; intros [=] | apply Hboot; lia].
Defined.

Lemma mouth_write_count_witness :
  exists st' ws,
    playfile annc (constant_start [100; -100; 127]) = Some (tt, st') /\
    trace st' = [] ++ EvOpen "annc.WAV" :: EvCreate :: EvPlay
                  :: map EvAnalogWrite ws /\
    List.length ws = 1%nat /\
    hd_error ws = Some 0 /\
    ws = [0] /\ LEDMOUTH st' = PWM 0.
Proof.
  destruct (mouth_write_count (W:=constant_shield [100; -100; 127]) annc
              (constant_start [100; -100; 127]) tt tt tt [100; -100; 127])
    as (st' & ws & E & Etr & Hcount & Hhd & Hshort);
    [split; reflexivity | split; cbn; lia | reflexivity | reflexivity
    | reflexivity |].
  exists st', ws. split; [exact E|]. split; [exact Etr|]. split; [exact Hcount|].
  split; [apply Hhd; discriminate | apply Hshort; cbn; lia].
Defined.

Lemma mouth_write_nth_witness :
  let samples := [3; -7; 12] ++ repeat 5 254 in
  exists st' tr,
    playfile annc (constant_start samples) = Some (tt, st') /\
    trace st' = [] ++ tr /\
    nth_error (written tr) 1 = Some 76.
Proof.
  intros samples.
  apply (mouth_write_nth (W:=constant_shield samples) annc (constant_start samples)
           tt tt tt samples 0 3 ([-7; 12] ++ repeat 5 253)).
  - split; reflexivity.
  - split; cbn; lia.
  - reflexivity.
  - reflexivity.
  - reflexivity.
  - subst samples. apply Forall_app. split; [repeat constructor; unfold is_int8; lia|].
    apply Forall_forall. intros x Hx. apply repeat_spec in Hx. subst x.
    unfold is_int8. lia.
  - cbn. lia.
  - reflexivity.
Defined.

Lemma mouth_window_levels_witness :
  let samples := ([] ++ 9 :: repeat 9 255) ++ [100] in
  exists st' tr b,
    playfile annc (constant_start samples) = Some (tt, st') /\
    trace st' = [] ++ tr ++ [EvAnalogWrite b] /\
    LEDMOUTH st' = PWM b /\
    (b = 0 <-> Forall (fun x => x = 9) (repeat 9 255)) /\
    (b = 255 <-> exists x y, In x (9 :: repeat 9 255) /\ In y (9 :: repeat 9 255) /\
                           64 <= y - x).
Proof.
  intros samples.
  apply (mouth_window_levels (W:=constant_shield samples) annc
           (constant_start samples) tt tt tt [] (repeat 9 255) 9 100).
  - split; reflexivity.
  - split; cbn; lia.
  - reflexivity.
  - reflexivity.
  - reflexivity.
  - apply Forall_forall. intros x Hx. apply (repeat_spec 256 9) in Hx. subst x.
    unfold is_int8. lia.
  - reflexivity.
  - apply repeat_length.
Defined.

Lemma debounce_after_release_witness :
  (exists st1 st2,
      loops ([(true, 7, 23, 45)] ++ (false, 4294967290, 99, 99)
                                 :: [(true, 4294967295, 0, 0); (true, 2, 0, 0)])
        example_start = Some (tt, st1) /\
      debounceTime st1 = 9 /\
      loop true 8 13 5 st1 = Some (tt, st2) /\ st2 = st1) /\
  (exists st1 st2,
      loops ([] ++ [(false, 4294967290, 99, 99)]) example_start = Some (tt, st1) /\
      loop true 9 13 5 st1 = Some (tt, st2) /\
      opened (trace st2) = opened (trace st1) ++ map file_of (phrase 13 5)).
Proof.
  assert (Hbuf : filename_ok (filename example_start)) by (split; reflexivity).
  split.
  - destruct (debounce_after_release (W:=example_shield) [(true, 7, 23, 45)]
                [(4294967295, 0, 0); (2, 0, 0)] example_start
                4294967290 4294967304 99 99 13 5)
      as (st1 & st2 & E1 & Ed & E2 & _ & _ & Hearly);
      [exact Hbuf | constructor; [right; split; cbn; lia | constructor]
      | repeat constructor; cbn; lia | lia | lia | lia |].
    exists st1, st2. split; [exact E1|]. split; [exact Ed|].
    split; [exact E2 | apply Hearly; lia].
  - destruct (debounce_after_release (W:=example_shield) [] []
                example_start 4294967290 4294967305 99 99 13 5)
      as (st1 & st2 & E1 & _ & E2 & _ & Hlate & _);
      [exact Hbuf | constructor | constructor | lia | lia | lia |].
    exists st1, st2. split; [exact E1|]. split; [exact E2 | apply Hlate; lia].
Defined.

Lemma playfile_played_witness :
  let samples := [3; -7; 12] ++ repeat 5 254 ++ [0; 1] in
  exists st',
    playfile annc example_start = Some (tt, st') /\
    trace st' =
      trace example_start ++ EvOpen "annc.WAV" :: EvCreate :: EvPlay
        :: map EvAnalogWrite [0; 76] /\
    LEDMOUTH st' = PWM 76 /\
    world st' = (true, samples).
Proof.
  intros samples.
  destruct (playfile_played (W:=example_shield) annc example_start
              (true, samples) (true, samples) (true, samples) samples)
    as (st' & E & Etr & _ & Hlast & _ & Ew);
    [split; reflexivity | split; cbn; lia | reflexivity | reflexivity
    | reflexivity | |].
  - subst samples. apply Forall_app. split; [repeat constructor; unfold is_int8; lia|].
    apply Forall_app. split; [|repeat constructor; unfold is_int8; lia].
    apply Forall_forall. intros x Hx. apply repeat_spec in Hx. subst x.
    unfold is_int8. lia.
  - exists st'. split; [exact E|]. split; [exact Etr|]. split; [|exact Ew].
    apply Hlast. discriminate.
Defined.
